(** * toon-lab: the JSON-versus-TOON comparison script

    A shallow embedding of [src/exp2/script.py]: the model resolver run at
    import time, the [TOONParsingTest] class and [main].

    Python values are modelled as the interpreter has them:
    - [str] is a sequence of Unicode code points ([list N]);
    - [float] is an IEEE 754 binary64 number (Rocq's primitive [float]);
    - [pathlib.Path] is the pure POSIX flavour: a root and a list of
      components;
    - exceptions are values of [exn]; a statement either returns or raises,
      and the effects it performed on the outside world are kept in a trace;
    - the console is not part of the model: [print] is taken to succeed, and
      of what is printed only the two verdicts of the report are kept. *)

From Stdlib Require Import Ascii String.
From Stdlib Require Import List NArith ZArith Bool Arith Lia.
From Stdlib Require Import Floats.
Import ListNotations.

Set Implicit Arguments.

(* ================================================================= *)
(** ** Python strings *)

Module PyStr.
Local Open Scope N_scope.

Definition codepoint := N.
Definition str := list codepoint.

(** An ASCII literal of the source as a [str]. *)
Definition lit (s : string) : str := map N_of_ascii (list_ascii_of_string s).

Fixpoint str_eqb (a b : str) : bool :=
  match a, b with
  | [], [] => true
  | x :: a', y :: b' => (x =? y) && str_eqb a' b'
  | _, _ => false
  end.

(** [str.isspace] on one character: CPython's [_PyUnicode_IsWhitespace]. *)
Definition is_whitespace (c : codepoint) : bool :=
  ((9 <=? c) && (c <=? 13)) || ((28 <=? c) && (c <=? 32))
  || (c =? 133) || (c =? 160) || (c =? 5760)
  || ((8192 <=? c) && (c <=? 8202))
  || (c =? 8232) || (c =? 8233) || (c =? 8239) || (c =? 8287)
  || (c =? 12288).

(** [s.lstrip()], [s.rstrip()] and [s.strip()] without argument. *)
Fixpoint lstrip (s : str) : str :=
  match s with
  | c :: s' => if is_whitespace c then lstrip s' else s
  | [] => []
  end.

Definition rstrip (s : str) : str := rev (lstrip (rev s)).

Definition strip (s : str) : str := rstrip (lstrip s).

(** [s.startswith(p)]. *)
Fixpoint startswith (p s : str) : bool :=
  match p, s with
  | [], _ => true
  | _ :: _, [] => false
  | a :: p', b :: s' => (a =? b) && startswith p' s'
  end.

(** [p in s] for strings: [p] occurs as a contiguous slice of [s]. *)
Fixpoint contains (p s : str) : bool :=
  startswith p s ||
  match s with
  | [] => false
  | _ :: s' => contains p s'
  end.

(** [sep.join(xs)]. *)
Fixpoint join (sep : str) (xs : list str) : str :=
  match xs with
  | [] => []
  | [x] => x
  | x :: xs' => x ++ sep ++ join sep xs'
  end.

(** [s.split(sep)] for a one-character separator: always at least one
    piece, empty pieces kept. *)
Fixpoint split (sep : codepoint) (s : str) : list str :=
  match s with
  | [] => [[]]
  | c :: s' =>
      if c =? sep then [] :: split sep s'
      else match split sep s' with
           | piece :: rest => (c :: piece) :: rest
           | [] => [[c]]
           end
  end.

(** [s.rfind(c)] for a one-character needle; [None] stands for [-1]. *)
Fixpoint rfind (c : codepoint) (s : str) : option nat :=
  match s with
  | [] => None
  | x :: s' =>
      match rfind c s' with
      | Some i => Some (S i)
      | None => if x =? c then Some 0%nat else None
      end
  end.

(** What [str.lower] does to an ASCII character. *)
Definition ascii_lower_char (c : codepoint) : codepoint :=
  if (65 <=? c) && (c <=? 90) then c + 32 else c.

Definition ascii_lower (s : str) : str := map ascii_lower_char s.

Definition is_ascii (s : str) : Prop := Forall (fun c => c < 128) s.

End PyStr.

Import PyStr.

(* ================================================================= *)
(** ** pathlib.PurePosixPath

    Parsing, [name], [suffix], [stem], [parent] and [/] as CPython 3.12
    defines them for the POSIX flavour. *)

Module PyPath.
Local Open Scope N_scope.

Definition slash : codepoint := 47.
Definition dot : codepoint := 46.

(** A parsed path: [root] is [""], ["/"] or ["//"]; [tail] holds the
    components, none of them empty or ["."]. *)
Record Path := mkPath { root : str; tail : list str }.

(** [posixpath.splitroot]: only the root matters here. *)
Definition splitroot (p : str) : str :=
  match p with
  | a :: rest =>
      if a =? slash then
        match rest with
        | b :: rest' =>
            if b =? slash then
              match rest' with
              | c :: _ => if c =? slash then [slash] else [slash; slash]
              | [] => [slash; slash]
              end
            else [slash]
        | [] => [slash]
        end
      else []
  | [] => []
  end.

Definition keep_component (x : str) : bool :=
  negb (str_eqb x []) && negb (str_eqb x [dot]).

Definition parse_tail (p : str) : list str :=
  filter keep_component (split slash p).

(** [Path(p)]. *)
Definition of_str (p : str) : Path := mkPath (splitroot p) (parse_tail p).

(** [str(path)]. *)
Definition to_str (p : Path) : str :=
  match root p, tail p with
  | [], [] => [dot]
  | r, t => r ++ join [slash] t
  end.

(** [path.name]. *)
Definition name (p : Path) : str := last (tail p) [].

(** [path.suffix] and [path.stem]: split the name at its last dot, unless
    that dot is the first or the last character. *)
Definition suffix (p : Path) : str :=
  let n := name p in
  match rfind dot n with
  | Some i => if ((0 <? i) && (i <? length n - 1))%nat then skipn i n else []
  | None => []
  end.

Definition stem (p : Path) : str :=
  let n := name p in
  match rfind dot n with
  | Some i => if ((0 <? i) && (i <? length n - 1))%nat then firstn i n else n
  | None => n
  end.

(** [path.parent]. *)
Definition parent (p : Path) : Path :=
  match tail p with
  | [] => p
  | _ => mkPath (root p) (removelast (tail p))
  end.

(** [path / key] for a string [key]. *)
Definition truediv (p : Path) (key : str) : Path :=
  if startswith [slash] key then of_str key
  else mkPath (root p) (tail p ++ parse_tail key).

End PyPath.

Import PyPath.

(* ================================================================= *)
(** ** Exceptions and results *)

(** The classes below [Exception] that the script names or provokes. *)
Inductive exc_class :=
| CalledProcessError
| FileNotFoundError
| ValueError
| AttributeError
| TypeError
| KeyError
| EOFError
| OtherException (cls_name : str).

(** A raised exception. [Exception_ c msg] is an instance of [Exception]
    with [str(e) = msg]; [KeyboardInterrupt] and [SystemExit] derive from
    [BaseException] only. *)
Inductive exn :=
| Exception_ (c : exc_class) (msg : str)
| KeyboardInterrupt
| SystemExit (code : Z).

(** [isinstance(e, Exception)]: what [except Exception] catches. *)
Definition is_Exception (e : exn) : bool :=
  match e with
  | Exception_ _ _ => true
  | KeyboardInterrupt | SystemExit _ => false
  end.

Definition is_KeyboardInterrupt (e : exn) : bool :=
  match e with
  | KeyboardInterrupt => true
  | _ => false
  end.

Definition is_class (k : exc_class) (e : exn) : bool :=
  match e, k with
  | Exception_ CalledProcessError _, CalledProcessError => true
  | Exception_ FileNotFoundError _, FileNotFoundError => true
  | _, _ => false
  end.

(** [str(e)]. *)
Definition str_of_exn (e : exn) : str :=
  match e with
  | Exception_ _ msg => msg
  | KeyboardInterrupt => []
  | SystemExit code => []
  end.

Inductive result (A : Type) :=
| Ok (a : A)
| Raise (e : exn).

Arguments Ok {A} a.
Arguments Raise {A} e.

(** An attribute of a foreign object: absent, [None], or a value. *)
Inductive attr (A : Type) :=
| AttrMissing
| AttrNone
| AttrVal (a : A).

Arguments AttrMissing {A}.
Arguments AttrNone {A}.
Arguments AttrVal {A} a.

(* ================================================================= *)
(** ** Model resolver (module level, lines 33-55) *)

Module Resolver.

(** A model object as the listing returns it. *)
Record Model := mkModel {
  model_name : attr str;
  supported_generation_methods : attr (list str)
}.

Definition fallback_model : str := lit "gemini-pro".

Section WithLower.

(** [str.lower]: the Unicode case mapping of the interpreter. *)
Variable str_lower : str -> str.

(** Lines 41-44 on one model: [Ok (Some n)] when the name [n] is appended
    to [gemini_models], [Ok None] when the model is passed over. *)
Definition candidate (model : Model) : result (option str) :=
  match model_name model with
  | AttrMissing => Ok None
  | AttrNone =>
      Raise (Exception_ AttributeError
               (lit "'NoneType' object has no attribute 'lower'"))
  | AttrVal n =>
      if contains (lit "gemini") (str_lower n) then
        match supported_generation_methods model with
        | AttrMissing => Ok (Some n)
        | AttrNone =>
            Raise (Exception_ TypeError
                     (lit "argument of type 'NoneType' is not iterable"))
        | AttrVal methods =>
            if existsb (str_eqb (lit "generateContent")) methods
               || match methods with [] => true | _ => false end
            then Ok (Some n) else Ok None
        end
      else Ok None
  end.

(** The loop of lines 40-44. *)
Fixpoint collect (models : list Model) (gemini_models : list str)
  : result (list str) :=
  match models with
  | [] => Ok gemini_models
  | model :: rest =>
      match candidate model with
      | Raise e => Raise e
      | Ok (Some n) => collect rest (gemini_models ++ [n])
      | Ok None => collect rest gemini_models
      end
  end.

(** The body of the [try] block; [None] is Python's [None]. *)
Definition resolve_try (listing : result (list Model)) : result (option str) :=
  match listing with
  | Raise e => Raise e
  | Ok models =>
      match collect models [] with
      | Raise e => Raise e
      | Ok (first :: _) => Ok (Some first)
      | Ok [] =>
          match models with
          | [] => Ok (Some fallback_model)
          | m :: _ =>
              match model_name m with
              | AttrMissing =>
                  Raise (Exception_ AttributeError
                           (lit "'Model' object has no attribute 'name'"))
              | AttrNone => Ok None
              | AttrVal n => Ok (Some n)
              end
          end
      end
  end.

(** The value bound to [AVAILABLE_MODEL], or the exception that leaves
    the module. *)
Definition AVAILABLE_MODEL (listing : result (list Model))
  : result (option str) :=
  match resolve_try listing with
  | Raise e => if is_Exception e then Ok (Some fallback_model) else Raise e
  | r => r
  end.

End WithLower.

End Resolver.

(* ================================================================= *)
(** ** The outside world *)

(** Values stored in the result dictionary. *)
Inductive value :=
| VStr (s : str)
| VFloat (f : float).

(** A Python [dict] with string keys, in insertion order. *)
Definition dict := list (str * value).


Fixpoint get (d : dict) (k : str) : option value :=
  match d with
  | [] => None
  | (k', v) :: d' => if str_eqb k' k then Some v else get d' k
  end.

(** The two verdicts that [display_results] prints. *)
Inductive response_verdict := IDENTICAL | DIFFER.
Inductive latency_verdict := SIMILAR | FASTER_TOON | FASTER_JSON.

(** Effects on the outside world, in the order they happen. The clock of
    [EvGenerate] and [EvSleep] is the monotonic clock at the start of the
    call, in nanoseconds. *)
Inductive event :=
| EvInput
| EvExists (p : Path)
| EvSubprocess (argv : list str)
| EvRead (p : Path)
| EvGenerate (start_ns : N) (model : str) (contents : str)
| EvSleep (start_ns : N) (secs : N)
| EvReport (rv : response_verdict) (lv : latency_verdict)
| EvWrite (p : Path) (d : dict) (complete : bool).

(** How [time.sleep] ends: after the requested time plus some overshoot
    (the call suspends for at least the time asked, also when a signal
    arrives, since Python 3.5), or cut short by an interrupt whose handler
    raises. *)
Inductive sleep_outcome :=
| Slept (overshoot_ns : N)
| SleepInterrupted (after_ns : N).

(** How [open(path, 'w')] followed by [json.dump] ends. *)
Inductive write_outcome :=
| Written
| OpenRaises (e : exn)
| DumpRaises (e : exn).

(** What the environment answers. Calls to the language model and readings
    of the wall clock are numbered from 0 in the order they are made. *)
Record Env := mkEnv {
  env_stdin : result str;
  env_exists : Path -> bool;
  env_subprocess : list str -> result unit;
  env_read : Path -> result str;
  env_generate : nat -> str -> str -> result (attr str);
  env_latency_ns : nat -> N;
  env_time : nat -> float;
  env_sleep : sleep_outcome;
  env_write : Path -> write_outcome
}.

Record World := mkWorld {
  now_ns : N;
  trace : list event;
  api_calls : nat;
  clock_reads : nat
}.

Definition init_world : World := mkWorld 0 [] 0 0.

Definition ns_per_second : N := 1000000000.

(** Statements: a world in, a result and a world out. *)
Definition M (A : Type) : Type := World -> result A * World.

Definition ret {A} (a : A) : M A := fun w => (Ok a, w).

Definition raise {A} (e : exn) : M A := fun w => (Raise e, w).

Definition bind {A B} (c : M A) (k : A -> M B) : M B :=
  fun w =>
    match c w with
    | (Ok a, w') => k a w'
    | (Raise e, w') => (Raise e, w')
    end.

(** [try: body except <catches> as e: handler e]. *)
Definition try_except {A} (body : M A) (catches : exn -> bool)
  (handler : exn -> M A) : M A :=
  fun w =>
    match body w with
    | (Raise e, w') => if catches e then handler e w' else (Raise e, w')
    | r => r
    end.

Definition lift {A} (r : result A) : M A := fun w => (r, w).

Definition emit (ev : event) : M unit :=
  fun w => (Ok tt, mkWorld (now_ns w) (trace w ++ [ev]) (api_calls w) (clock_reads w)).

Declare Scope py_scope.
Delimit Scope py_scope with py.
Notation "x <- c ;; k" := (bind c (fun x => k))
  (at level 61, c at next level, right associativity) : py_scope.
Notation "c ;; k" := (bind c (fun _ => k))
  (at level 61, right associativity) : py_scope.
Local Open Scope py_scope.

(** [sys.exit(code)]. *)
Definition sys_exit {A} (code : Z) : M A := raise (SystemExit code).

Section Script.

Variable str_lower : str -> str.
Variable E : Env.
Variable AVAILABLE_MODEL : str.

(** [input(prompt)]. *)
Definition input : M str := emit EvInput ;; lift (env_stdin E).

(** [path.exists()]. *)
Definition exists_ (p : Path) : M bool := emit (EvExists p) ;; ret (env_exists E p).

(** [subprocess.run(argv, capture_output=True, text=True, check=True)]. *)
Definition subprocess_run (argv : list str) : M unit :=
  emit (EvSubprocess argv) ;; lift (env_subprocess E argv).

(** [open(p, 'r')] and [f.read()]. *)
Definition read_file (p : Path) : M str := emit (EvRead p) ;; lift (env_read E p).

(** [time.time()]. *)
Definition time_time : M float :=
  fun w => (Ok (env_time E (clock_reads w)),
            mkWorld (now_ns w) (trace w) (api_calls w) (S (clock_reads w))).

(** [client.models.generate_content(model=..., contents=...)]. *)
Definition generate_content (model contents : str) : M (attr str) :=
  fun w =>
    let n := api_calls w in
    (env_generate E n model contents,
     mkWorld (now_ns w + env_latency_ns E n)
             (trace w ++ [EvGenerate (now_ns w) model contents])
             (S n) (clock_reads w)).

(** [time.sleep(secs)]. *)
Definition time_sleep (secs : N) : M unit :=
  fun w =>
    let ev := EvSleep (now_ns w) secs in
    match env_sleep E with
    | Slept over =>
        (Ok tt, mkWorld (now_ns w + secs * ns_per_second + over)
                        (trace w ++ [ev]) (api_calls w) (clock_reads w))
    | SleepInterrupted after =>
        (Raise KeyboardInterrupt,
         mkWorld (now_ns w + after) (trace w ++ [ev]) (api_calls w) (clock_reads w))
    end.

(** [with open(p, 'w') as f: json.dump(d, f, indent=2)]. *)
Definition write_json (p : Path) (d : dict) : M unit :=
  match env_write E p with
  | Written => emit (EvWrite p d true)
  | OpenRaises e => raise e
  | DumpRaises e => emit (EvWrite p d false) ;; raise e
  end.

(* ----------------------------------------------------------------- *)
(** *** class TOONParsingTest *)

Record TOONParsingTest := mkTest {
  json_file_path : Path;
  toon_file_path : option Path;
  json_content : option str;
  toon_content : option str
}.

(** [TOONParsingTest.__init__] (lines 61-71). *)
Definition init (json_file : str) : M TOONParsingTest :=
  let self := mkTest (of_str json_file) None None None in
  found <- exists_ (json_file_path self) ;;
  if negb found then
    raise (Exception_ FileNotFoundError (lit "JSON file not found: " ++ json_file))
  else if negb (str_eqb (suffix (json_file_path self)) (lit ".json")) then
    raise (Exception_ ValueError (lit "File must have .json extension"))
  else ret self.

(** The argument list handed to [subprocess.run] (line 84). *)
Definition converter_argv (input output : Path) : list str :=
  [lit "npx"; lit "@toon-format/cli"; to_str input; lit "-o"; to_str output].

(** [convert_to_toon] (lines 73-99); the object is returned with its
    [toon_file_path] set. *)
Definition convert_to_toon (self : TOONParsingTest) : M TOONParsingTest :=
  let output_name := stem (json_file_path self) ++ lit "_output.toon" in
  let toon := truediv (parent (json_file_path self)) output_name in
  let self := mkTest (json_file_path self) (Some toon)
                     (json_content self) (toon_content self) in
  try_except
    (subprocess_run (converter_argv (json_file_path self) toon) ;;
     ret self)
    (fun e => is_class CalledProcessError e || is_class FileNotFoundError e)
    (fun _ => sys_exit 1).

(** [load_contents] (lines 101-114). *)
Definition load_contents (self : TOONParsingTest) : M TOONParsingTest :=
  json <- read_file (json_file_path self) ;;
  match toon_file_path self with
  | None =>
      raise (Exception_ TypeError
               (lit "expected str, bytes or os.PathLike object, not NoneType"))
  | Some toon_path =>
      toon <- read_file toon_path ;;
      ret (mkTest (json_file_path self) (toon_file_path self) (Some json) (Some toon))
  end.

Definition nl : str := [10%N].

(** How an f-string renders an optional string. *)
Definition format_opt (s : option str) : str :=
  match s with
  | Some s => s
  | None => lit "None"
  end.

(** The prompt of lines 122-129. *)
Definition prompt (data_content : option str) (data_format question : str) : str :=
  lit "You are a data analyst. I will provide you with data in "
  ++ data_format ++ lit " format." ++ nl ++ nl
  ++ lit "DATA:" ++ nl ++ format_opt data_content ++ nl ++ nl
  ++ lit "TASK: " ++ question ++ nl ++ nl
  ++ lit "Please analyze the data and provide a precise answer. Be specific and include all relevant details.".

(** [response.text.strip()] (line 141). *)
Definition text_strip (response : attr str) : M str :=
  match response with
  | AttrMissing =>
      raise (Exception_ AttributeError
               (lit "'GenerateContentResponse' object has no attribute 'text'"))
  | AttrNone =>
      raise (Exception_ AttributeError
               (lit "'NoneType' object has no attribute 'strip'"))
  | AttrVal text => ret (strip text)
  end.

(** [query_llm] (lines 116-144). *)
Definition query_llm (data_content : option str) (data_format question : str)
  : M (str * float) :=
  let prompt := prompt data_content data_format question in
  try_except
    (start_time <- time_time ;;
     response <- generate_content AVAILABLE_MODEL prompt ;;
     end_time <- time_time ;;
     let response_time := (end_time - start_time)%float in
     text <- text_strip response ;;
     ret (text, response_time))
    is_Exception
    (fun e => ret (lit "Error: " ++ str_of_exn e, 0%float)).

(** [run_test] (lines 146-175). *)
Definition run_test (self : TOONParsingTest) (question : str) : M dict :=
  jr <- query_llm (json_content self) (lit "JSON") question ;;
  time_sleep 2 ;;
  tr <- query_llm (toon_content self) (lit "TOON") question ;;
  ret [ (lit "question", VStr question);
        (lit "json_response", VStr (fst jr));
        (lit "json_time", VFloat (snd jr));
        (lit "toon_response", VStr (fst tr));
        (lit "toon_time", VFloat (snd tr)) ].

(** [results[k]]. *)
Definition getitem (results : dict) (k : str) : M value :=
  match get results k with
  | Some v => ret v
  | None => raise (Exception_ KeyError (lit "'" ++ k ++ lit "'"))
  end.

(** A value formatted with [:.2f], and a value whose string methods are
    called. *)
Definition as_float (v : value) : M float :=
  match v with
  | VFloat f => ret f
  | VStr _ =>
      raise (Exception_ ValueError
               (lit "Unknown format code 'f' for object of type 'str'"))
  end.

Definition as_str (v : value) : M str :=
  match v with
  | VStr s => ret s
  | VFloat _ =>
      raise (Exception_ AttributeError
               (lit "'float' object has no attribute 'split'"))
  end.

(** Lines 201-204. *)
Definition compare_responses (json_response toon_response : str) : response_verdict :=
  if str_eqb (str_lower json_response) (str_lower toon_response)
  then IDENTICAL else DIFFER.

(** Lines 208-214. *)
Definition compare_times (json_time toon_time : float) : latency_verdict :=
  let time_diff := (json_time - toon_time)%float in
  if (abs time_diff <? 0.5)%float then SIMILAR
  else if (0 <? time_diff)%float then FASTER_TOON
  else FASTER_JSON.

(** [display_results] (lines 177-216): the console output is kept as the
    two verdicts. *)
Definition display_results (results : dict) : M unit :=
  _ <- getitem results (lit "question") ;;
  json_time <- (v <- getitem results (lit "json_time") ;; as_float v) ;;
  json_response <- (v <- getitem results (lit "json_response") ;; as_str v) ;;
  toon_time <- (v <- getitem results (lit "toon_time") ;; as_float v) ;;
  toon_response <- (v <- getitem results (lit "toon_response") ;; as_str v) ;;
  emit (EvReport (compare_responses json_response toon_response)
                 (compare_times json_time toon_time)).

(** [save_results] with the default [output_file] (lines 218-225). *)
Definition save_results (self : TOONParsingTest) (results : dict) : M unit :=
  let output_path := truediv (parent (json_file_path self)) (lit "test_results.json") in
  write_json output_path results.

(* ----------------------------------------------------------------- *)
(** *** main *)

(** The body of the [try] statement of [main] (lines 281-297). *)
Definition main_try (json_file question : str) : M unit :=
  test <- init json_file ;;
  test <- convert_to_toon test ;;
  test <- load_contents test ;;
  results <- run_test test question ;;
  display_results results ;;
  save_results test results.

(** Lines 265-278: the question from the arguments or from the prompt. *)
Definition get_question (question_tokens : list str) : M str :=
  match question_tokens with
  | _ :: _ => ret (join (lit " ") question_tokens)
  | [] =>
      line <- input ;;
      let question := strip line in
      match question with
      | [] => sys_exit 1
      | _ => ret question
      end
  end.

(** [main] (lines 251-304) on [sys.argv]. *)
Definition main (argv : list str) : M unit :=
  match argv with
  | [] | [_] => sys_exit 1
  | _ :: json_file :: question_tokens =>
      question <- get_question question_tokens ;;
      try_except (main_try json_file question)
        (fun e => is_KeyboardInterrupt e || is_Exception e)
        (fun e => if is_KeyboardInterrupt e then sys_exit 0 else sys_exit 1)
  end.

End Script.

(** How the interpreter ends once [main] is left. *)
Inductive termination :=
| Exited (status : Z)
| Traceback (e : exn).

Definition terminate (r : result unit) : termination :=
  match r with
  | Ok _ => Exited 0
  | Raise (SystemExit code) => Exited code
  | Raise e => Traceback e
  end.

(* ================================================================= *)
(** ** Facts about strings *)

Example of_str_relative :
  of_str (lit "./data//sample.json") = mkPath [] [lit "data"; lit "sample.json"].
Proof. reflexivity. Qed.

Example suffix_sample : suffix (of_str (lit "/tmp/a.b/sample.tar.json")) = lit ".json".
Proof. reflexivity. Qed.

Example suffix_hidden : suffix (of_str (lit "dir/.json")) = [].
Proof. reflexivity. Qed.

Example stem_sample : stem (of_str (lit "/tmp/sample.json")) = lit "sample".
Proof. reflexivity. Qed.

Example strip_sample : strip (lit "  Yes. " ++ [10%N]) = lit "Yes.".
Proof. reflexivity. Qed.

Lemma str_eqb_eq (a b : str) : str_eqb a b = true <-> a = b.
Proof.
  revert b. induction a as [|x a IH]; intros [|y b]; simpl; split;
    try congruence; try reflexivity.
  - intros H. apply andb_true_iff in H as [Hxy Hab].
    apply N.eqb_eq in Hxy. apply IH in Hab. now subst.
  - intros H. inversion H; subst. rewrite N.eqb_refl. simpl. now apply IH.
Qed.

Lemma str_eqb_refl (a : str) : str_eqb a a = true.
Proof. now apply str_eqb_eq. Qed.

Lemma str_eqb_neq (a b : str) : str_eqb a b = false <-> a <> b.
Proof.
  split.
  - intros H Hab. apply str_eqb_eq in Hab. congruence.
  - intros H. destruct (str_eqb a b) eqn:Hab; [|reflexivity].
    apply str_eqb_eq in Hab. contradiction.
Qed.

Definition all_whitespace (s : str) : Prop := Forall (fun c => is_whitespace c = true) s.

(** No whitespace at the front, none at the back. *)
Definition no_leading_ws (s : str) : Prop :=
  forall c t, s = c :: t -> is_whitespace c = false.

Definition no_trailing_ws (s : str) : Prop :=
  forall t c, s = t ++ [c] -> is_whitespace c = false.

Lemma lstrip_split (s : str) :
  exists l, s = l ++ lstrip s /\ all_whitespace l.
Proof.
  induction s as [|c s IH]; simpl.
  - exists []. split; [reflexivity | constructor].
  - destruct (is_whitespace c) eqn:Hc.
    + destruct IH as (l & Hs & Hl). exists (c :: l). split.
      * simpl. now rewrite <- Hs.
      * now constructor.
    + exists []. split; [reflexivity | constructor].
Qed.

Lemma lstrip_no_leading (s : str) : no_leading_ws (lstrip s).
Proof.
  induction s as [|c s IH]; simpl.
  - intros c' t H. discriminate.
  - destruct (is_whitespace c) eqn:Hc; [exact IH|].
    intros c' t H. now inversion H; subst.
Qed.

Lemma all_whitespace_rev (s : str) : all_whitespace s -> all_whitespace (rev s).
Proof. unfold all_whitespace. apply Forall_rev. Qed.

Lemma rstrip_split (s : str) :
  exists r, s = rstrip s ++ r /\ all_whitespace r.
Proof.
  unfold rstrip. destruct (lstrip_split (rev s)) as (l & Hs & Hl).
  exists (rev l). split.
  - rewrite <- rev_app_distr, <- Hs. now rewrite rev_involutive.
  - now apply all_whitespace_rev.
Qed.

Lemma rstrip_no_trailing (s : str) : no_trailing_ws (rstrip s).
Proof.
  unfold rstrip. intros t c H.
  apply (f_equal (@rev N)) in H.
  rewrite rev_involutive, rev_app_distr in H. simpl in H.
  now apply (lstrip_no_leading (rev s)) in H.
Qed.

Lemma rstrip_keeps_no_leading (s : str) : no_leading_ws s -> no_leading_ws (rstrip s).
Proof.
  intros Hs c t H. destruct (rstrip_split s) as (r & Hr & _).
  rewrite H in Hr. simpl in Hr. now apply (Hs c (t ++ r)).
Qed.

(** [strip] removes a run of whitespace at each end and nothing else, and
    leaves no whitespace at either end. *)
Lemma strip_spec (s : str) :
  exists l r,
    s = l ++ strip s ++ r /\ all_whitespace l /\ all_whitespace r /\
    no_leading_ws (strip s) /\ no_trailing_ws (strip s).
Proof.
  unfold strip.
  destruct (lstrip_split s) as (l & Hl & Wl).
  destruct (rstrip_split (lstrip s)) as (r & Hr & Wr).
  exists l, r. repeat split; auto.
  - now rewrite <- Hr.
  - apply rstrip_keeps_no_leading, lstrip_no_leading.
  - apply rstrip_no_trailing.
Qed.

Lemma lstrip_all_whitespace (s : str) : all_whitespace s -> lstrip s = [].
Proof.
  induction 1 as [|c s Hc _ IH]; simpl; [reflexivity|]. now rewrite Hc.
Qed.

(** A line that is empty or all whitespace strips to the empty string, and
    only such a line does. *)
Lemma strip_empty_iff (s : str) : strip s = [] <-> all_whitespace s.
Proof.
  split.
  - intros H. destruct (strip_spec s) as (l & r & Hs & Wl & Wr & _).
    rewrite H in Hs. simpl in Hs. rewrite Hs.
    unfold all_whitespace in *. apply Forall_app. now split.
  - intros H. unfold strip, rstrip.
    rewrite (lstrip_all_whitespace H). reflexivity.
Qed.

(* ================================================================= *)
(** ** Facts about statements *)

Lemma bind_ok {A B} (c : M A) (k : A -> M B) w a w' :
  c w = (Ok a, w') -> bind c k w = k a w'.
Proof. unfold bind. now intros ->. Qed.

Lemma bind_raise {A B} (c : M A) (k : A -> M B) w e w' :
  c w = (Raise e, w') -> bind c k w = (Raise e, w').
Proof. unfold bind. now intros ->. Qed.


Arguments bind_ok {A B c} k {w a w'} _.
Arguments bind_raise {A B c} k {w e w'} _.

(** The events a run appends to the trace. *)
Definition appended {A} (c : M A) (w : World) (evs : list event) : Prop :=
  trace (snd (c w)) = trace w ++ evs.

(** Every run of [c] appends only events that satisfy [P]. *)
Definition only (P : event -> Prop) {A} (c : M A) : Prop :=
  forall w, exists evs, appended c w evs /\ Forall P evs.

Lemma only_ret P {A} (a : A) : only P (ret a).
Proof. intros w. exists []. split; [unfold appended; simpl; now rewrite app_nil_r | constructor]. Qed.

Lemma only_raise P {A} e : only P (@raise A e).
Proof. intros w. exists []. split; [unfold appended; simpl; now rewrite app_nil_r | constructor]. Qed.

Lemma only_lift P {A} (r : result A) : only P (lift r).
Proof. intros w. exists []. split; [unfold appended; simpl; now rewrite app_nil_r | constructor]. Qed.

Lemma only_emit (P : event -> Prop) ev : P ev -> only P (emit ev).
Proof. intros H w. exists [ev]. split; [reflexivity | now repeat constructor]. Qed.

Lemma only_bind P {A B} (c : M A) (k : A -> M B) :
  only P c -> (forall a, only P (k a)) -> only P (bind c k).
Proof.
  intros Hc Hk w. destruct (Hc w) as (e1 & H1 & F1).
  unfold appended, bind in *. destruct (c w) as [[a|e] w1]; simpl in *.
  - destruct (Hk a w1) as (e2 & H2 & F2). exists (e1 ++ e2). split.
    + unfold appended in H2. now rewrite H2, H1, app_assoc.
    + apply Forall_app. now split.
  - now exists e1.
Qed.

Lemma only_try_except P {A} (body : M A) catches handler :
  only P body -> (forall e, only P (handler e)) ->
  only P (try_except body catches handler).
Proof.
  intros Hb Hh w. destruct (Hb w) as (e1 & H1 & F1).
  unfold appended, try_except in *. destruct (body w) as [[a|e] w1]; simpl in *.
  - now exists e1.
  - destruct (catches e); simpl.
    + destruct (Hh e w1) as (e2 & H2 & F2). exists (e1 ++ e2). split.
      * unfold appended in H2. now rewrite H2, H1, app_assoc.
      * apply Forall_app. now split.
    + now exists e1.
Qed.

(* ================================================================= *)
(** ** The query dispatcher *)

Section Dispatch.

Variable E : Env.
Variable AVAILABLE_MODEL : str.

(** The world after one call of [query_llm] that read the wall clock
    [reads] times. *)
Definition after_query (w : World) (contents : str) (reads : nat) : World :=
  mkWorld (now_ns w + env_latency_ns E (api_calls w))
          (trace w ++ [EvGenerate (now_ns w) AVAILABLE_MODEL contents])
          (S (api_calls w)) (reads + clock_reads w).

Definition error_text (e : exn) : str := lit "Error: " ++ str_of_exn e.

Definition none_has_no_strip : exn :=
  Exception_ AttributeError (lit "'NoneType' object has no attribute 'strip'").

Definition response_has_no_text : exn :=
  Exception_ AttributeError
    (lit "'GenerateContentResponse' object has no attribute 'text'").

(** [query_llm], one case per answer of the service. *)
Lemma query_llm_cases data fmt q w :
  let p := prompt data fmt q in
  query_llm E AVAILABLE_MODEL data fmt q w =
  match env_generate E (api_calls w) AVAILABLE_MODEL p with
  | Ok (AttrVal text) =>
      (Ok (strip text,
           (env_time E (S (clock_reads w)) - env_time E (clock_reads w))%float),
       after_query w p 2)
  | Ok AttrNone => (Ok (error_text none_has_no_strip, 0%float), after_query w p 2)
  | Ok AttrMissing => (Ok (error_text response_has_no_text, 0%float), after_query w p 2)
  | Raise e =>
      if is_Exception e then (Ok (error_text e, 0%float), after_query w p 1)
      else (Raise e, after_query w p 1)
  end.
Proof.
  unfold query_llm, try_except, bind, time_time, generate_content, after_query.
  simpl.
  destruct (env_generate E (api_calls w) AVAILABLE_MODEL (prompt data fmt q))
    as [[| |text]|e]; simpl; try reflexivity.
Qed.


Lemma query_llm_world data fmt q w :
  exists reads,
    snd (query_llm E AVAILABLE_MODEL data fmt q w)
    = after_query w (prompt data fmt q) reads.
Proof.
  rewrite query_llm_cases.
  destruct (env_generate E (api_calls w) AVAILABLE_MODEL (prompt data fmt q))
    as [[| |text]|e']; simpl; eauto.
  destruct (is_Exception e'); simpl; eauto.
Qed.

(** C9: a response whose text is [None] or missing becomes an error-valued
    result with time [0.0] and nothing is raised; a response with a text
    is returned stripped: the stored text is the original without a run of
    whitespace at each end, and has no whitespace at either end. *)
Theorem query_llm_text_postprocessing data fmt q w response :
  env_generate E (api_calls w) AVAILABLE_MODEL (prompt data fmt q) = Ok response ->
  match response with
  | AttrNone =>
      fst (query_llm E AVAILABLE_MODEL data fmt q w)
      = Ok (lit "Error: 'NoneType' object has no attribute 'strip'", 0%float)
  | AttrMissing =>
      exists msg,
        fst (query_llm E AVAILABLE_MODEL data fmt q w)
        = Ok (lit "Error: " ++ msg, 0%float)
  | AttrVal text =>
      exists stored elapsed,
        fst (query_llm E AVAILABLE_MODEL data fmt q w) = Ok (stored, elapsed) /\
        stored = strip text /\
        (exists l r, text = l ++ stored ++ r /\ all_whitespace l /\ all_whitespace r) /\
        no_leading_ws stored /\ no_trailing_ws stored
  end.
Proof.
  intros H. rewrite query_llm_cases, H. destruct response as [| |text]; simpl.
  - eexists. reflexivity.
  - reflexivity.
  - do 2 eexists. split; [reflexivity|]. split; [reflexivity|].
    destruct (strip_spec text) as (l & r & Hs & Wl & Wr & Hl & Hr).
    split; [now exists l, r | now split].
Qed.

End Dispatch.

(* ================================================================= *)
(** ** The comparison run *)

Section ComparisonRun.

Variable E : Env.
Variable AVAILABLE_MODEL : str.

(** The record assembled at the end of [run_test]. *)
Definition comparison_record (question jr : str) (jt : float) (tr : str) (tt : float)
  : dict :=
  [ (lit "question", VStr question);
    (lit "json_response", VStr jr);
    (lit "json_time", VFloat jt);
    (lit "toon_response", VStr tr);
    (lit "toon_time", VFloat tt) ].

(** When the service raises nothing but instances of [Exception], a call
    returns, and a failed call returns the error text and [0.0]. *)
Lemma query_llm_returns data fmt q w :
  (forall e, env_generate E (api_calls w) AVAILABLE_MODEL (prompt data fmt q) = Raise e ->
             is_Exception e = true) ->
  exists text elapsed reads,
    query_llm E AVAILABLE_MODEL data fmt q w = (Ok (text, elapsed), after_query E AVAILABLE_MODEL w (prompt data fmt q) reads) /\
    (forall e, env_generate E (api_calls w) AVAILABLE_MODEL (prompt data fmt q) = Raise e ->
               text = error_text e /\ elapsed = 0%float).
Proof.
  intros Hexc. rewrite query_llm_cases.
  destruct (env_generate E (api_calls w) AVAILABLE_MODEL (prompt data fmt q))
    as [[| |text]|e] eqn:Hgen; simpl.
  - do 3 eexists. split; [reflexivity | discriminate].
  - do 3 eexists. split; [reflexivity | discriminate].
  - do 3 eexists. split; [reflexivity | discriminate].
  - rewrite (Hexc e eq_refl). do 3 eexists. split; [reflexivity|].
    intros e' He'. inversion He'; subst. now split.
Qed.

Lemma time_sleep_slept secs w over :
  env_sleep E = Slept over ->
  time_sleep E secs w
  = (Ok tt, mkWorld (now_ns w + secs * ns_per_second + over)
                    (trace w ++ [EvSleep (now_ns w) secs])
                    (api_calls w) (clock_reads w)).
Proof. unfold time_sleep. now intros ->. Qed.



(** C2: the events of a run are the JSON call, then the pause of 2
    seconds, then the TOON call, in that order; the TOON call starts at
    least 2 seconds after the pause began, hence at least 2 seconds after
    the JSON call started; and a run that returns has made all three. *)
Theorem toon_dispatch_waits (self : TOONParsingTest) (q : str) (w : World) :
  let pj := prompt (json_content self) (lit "JSON") q in
  let pt := prompt (toon_content self) (lit "TOON") q in
  let t_json := now_ns w in
  let t_pause := (t_json + env_latency_ns E (api_calls w))%N in
  let run := run_test E AVAILABLE_MODEL self q w in
  exists evs,
    trace (snd run) = trace w ++ evs /\
    (evs = [EvGenerate t_json AVAILABLE_MODEL pj]
     \/ evs = [EvGenerate t_json AVAILABLE_MODEL pj; EvSleep t_pause 2]
     \/ exists t_toon,
          evs = [EvGenerate t_json AVAILABLE_MODEL pj; EvSleep t_pause 2;
                 EvGenerate t_toon AVAILABLE_MODEL pt] /\
          (t_pause + 2 * ns_per_second <= t_toon)%N /\
          (t_json + 2 * ns_per_second <= t_toon)%N) /\
    (forall d, fst run = Ok d ->
       exists t_toon,
         evs = [EvGenerate t_json AVAILABLE_MODEL pj; EvSleep t_pause 2;
                EvGenerate t_toon AVAILABLE_MODEL pt] /\
         (t_json + 2 * ns_per_second <= t_toon)%N).
Proof.
  intros pj pt t_json t_pause run. subst run. unfold run_test.
  destruct (query_llm_world E AVAILABLE_MODEL (json_content self) (lit "JSON") q w)
    as (r1 & Hw1).
  destruct (query_llm E AVAILABLE_MODEL (json_content self) (lit "JSON") q w)
    as [[jr|e1] w1] eqn:Hq1; simpl in Hw1; subst w1.
  - rewrite (bind_ok _ Hq1).
    set (w1 := after_query E AVAILABLE_MODEL w _ r1).
    destruct (env_sleep E) as [over|after] eqn:Hsleep.
    + rewrite (bind_ok _ (time_sleep_slept 2 w1 Hsleep)).
      set (w2 := mkWorld _ _ _ _).
      destruct (query_llm_world E AVAILABLE_MODEL (toon_content self) (lit "TOON") q w2)
        as (r2 & Hw2).
      assert (Hlate : (t_pause + 2 * ns_per_second <= now_ns w2)%N)
        by (subst w2 w1 t_pause t_json; simpl; lia).
      exists [EvGenerate t_json AVAILABLE_MODEL pj; EvSleep t_pause 2;
              EvGenerate (now_ns w2) AVAILABLE_MODEL pt].
      assert (Htrace :
        trace (after_query E AVAILABLE_MODEL w2 pt r2)
        = trace w ++ [EvGenerate t_json AVAILABLE_MODEL pj; EvSleep t_pause 2;
                      EvGenerate (now_ns w2) AVAILABLE_MODEL pt])
        by (simpl; rewrite <- !app_assoc; reflexivity).
      destruct (query_llm E AVAILABLE_MODEL (toon_content self) (lit "TOON") q w2)
        as [[tr|e2] w3] eqn:Hq2; simpl in Hw2; subst w3.
      * rewrite (bind_ok _ Hq2). split; [exact Htrace|]. split.
        -- right. right. exists (now_ns w2). split; [reflexivity|].
           subst t_pause. split; lia.
        -- intros d _. exists (now_ns w2). split; [reflexivity|].
           subst t_pause. lia.
      * rewrite (bind_raise _ Hq2). split; [exact Htrace|]. split.
        -- right. right. exists (now_ns w2). split; [reflexivity|].
           subst t_pause. split; lia.
        -- intros d Hd. discriminate.
    + assert (Hs : time_sleep E 2 w1
                   = (Raise KeyboardInterrupt,
                      mkWorld (now_ns w1 + after) (trace w1 ++ [EvSleep (now_ns w1) 2])
                              (api_calls w1) (clock_reads w1)))
        by (unfold time_sleep; now rewrite Hsleep).
      rewrite (bind_raise _ Hs).
      exists [EvGenerate t_json AVAILABLE_MODEL pj; EvSleep t_pause 2]. split.
      * simpl. rewrite <- !app_assoc. reflexivity.
      * split; [right; left; reflexivity | intros d Hd; discriminate].
  - rewrite (bind_raise _ Hq1).
    exists [EvGenerate t_json AVAILABLE_MODEL pj]. split; [reflexivity|].
    split; [left; reflexivity | intros d Hd; discriminate].
Qed.

End ComparisonRun.

(* ================================================================= *)
(** ** The reporter *)

Section Reporter.

Variable str_lower : str -> str.

(** What [display_results] does with the record of a comparison run: it
    raises nothing and prints the two verdicts. *)
Lemma display_results_record q jr jt tr tt w :
  display_results str_lower (comparison_record q jr jt tr tt) w
  = (Ok Datatypes.tt,
     mkWorld (now_ns w)
             (trace w ++ [EvReport (compare_responses str_lower jr tr)
                                   (compare_times jt tt)])
             (api_calls w) (clock_reads w)).
Proof. reflexivity. Qed.

(** Comparisons of binary64 numbers with zero exclude each other. *)
Lemma ltb_zero_asym (x : float) : (x <? 0)%float = true -> (0 <? x)%float = false.
Proof.
  rewrite !ltb_spec. unfold SFltb.
  change (Prim2SF 0%float) with (S754_zero false).
  destruct (Prim2SF x) as [s|s| |s m e]; simpl; try destruct s; congruence.
Qed.

(** C3: the latency verdict of the report is SIMILAR exactly when the
    absolute value of [json_time - toon_time] is below 0.5 (strictly: a
    difference of exactly 0.5 is not SIMILAR); otherwise it is FASTER(TOON)
    when the difference is above zero and FASTER(JSON) when it is below. *)
Theorem latency_verdict_threshold (q jr tr : str) (json_time toon_time : float)
  (w : World) :
  let time_diff := (json_time - toon_time)%float in
  exists rv lv,
    trace (snd (display_results str_lower
                  (comparison_record q jr json_time tr toon_time) w))
    = trace w ++ [EvReport rv lv] /\
    lv = compare_times json_time toon_time /\
    (lv = SIMILAR <-> (abs time_diff <? 0.5)%float = true) /\
    ((abs time_diff <? 0.5)%float = false ->
       ((0 <? time_diff)%float = true -> lv = FASTER_TOON) /\
       ((time_diff <? 0)%float = true -> lv = FASTER_JSON)) /\
    compare_times 0.5 0 <> SIMILAR /\
    compare_times 0 0.5 <> SIMILAR /\
    compare_times 0.4375 0 = SIMILAR.
Proof.
  intros time_diff. rewrite display_results_record. simpl.
  do 2 eexists. split; [reflexivity|]. split; [reflexivity|].
  unfold compare_times. fold time_diff.
  repeat split.
  - destruct (abs time_diff <? 0.5)%float; [reflexivity|].
    destruct (0 <? time_diff)%float; discriminate.
  - intros ->. reflexivity.
  - intros ->. now rewrite H.
  - intros Hneg. rewrite H, (ltb_zero_asym Hneg). reflexivity.
  - discriminate.
  - discriminate.
Qed.

(** [str.lower] leaves anything but the capital letters of an ASCII string
    alone. *)
Hypothesis str_lower_ascii : forall s, is_ascii s -> str_lower s = ascii_lower s.

(** C4: the verdict on the two responses is IDENTICAL exactly when their
    lowercased texts are equal, and DIFFER otherwise; ["Yes"] against
    ["yes"] is IDENTICAL, ["Yes."] against ["Yes"] is DIFFER. *)
Theorem identical_verdict_ignores_case (q jr tr : str) (json_time toon_time : float)
  (w : World) :
  exists rv lv,
    trace (snd (display_results str_lower
                  (comparison_record q jr json_time tr toon_time) w))
    = trace w ++ [EvReport rv lv] /\
    rv = compare_responses str_lower jr tr /\
    (rv = IDENTICAL <-> str_lower jr = str_lower tr) /\
    (rv = DIFFER <-> str_lower jr <> str_lower tr) /\
    compare_responses str_lower (lit "Yes") (lit "yes") = IDENTICAL /\
    compare_responses str_lower (lit "Yes.") (lit "Yes") = DIFFER.
Proof.
  rewrite display_results_record. simpl.
  do 2 eexists. split; [reflexivity|]. split; [reflexivity|].
  unfold compare_responses. repeat split.
  - destruct (str_eqb (str_lower jr) (str_lower tr)) eqn:Heq; [|discriminate].
    intros _. now apply str_eqb_eq.
  - intros Heq. apply str_eqb_eq in Heq. now rewrite Heq.
  - destruct (str_eqb (str_lower jr) (str_lower tr)) eqn:Heq; [discriminate|].
    intros _. now apply str_eqb_neq.
  - intros Hneq. apply str_eqb_neq in Hneq. now rewrite Hneq.
  - rewrite !str_lower_ascii by (repeat constructor). reflexivity.
  - rewrite !str_lower_ascii by (repeat constructor). reflexivity.
Qed.

End Reporter.

(* ================================================================= *)
(** ** The model resolver *)

Module ResolverFacts.
Import Resolver.

Section WithLower.

Variable str_lower : str -> str.

(** A model as the service documents it: a name that is a string, and
    generation methods that are a list or absent. *)
Definition well_formed (m : Model) : Prop :=
  (exists n, model_name m = AttrVal n) /\ supported_generation_methods m <> AttrNone.

Definition name_of (m : Model) : option str :=
  match model_name m with
  | AttrVal n => Some n
  | _ => None
  end.

(** The models that the loop keeps, said directly: the lowercased name
    contains ["gemini"], and the generation methods contain
    ["generateContent"] or are empty or absent. *)
Definition is_gemini_generator (m : Model) : bool :=
  match model_name m with
  | AttrVal n =>
      contains (lit "gemini") (str_lower n) &&
      match supported_generation_methods m with
      | AttrMissing => true
      | AttrNone => false
      | AttrVal [] => true
      | AttrVal methods => existsb (str_eqb (lit "generateContent")) methods
      end
  | _ => false
  end.

Lemma candidate_well_formed (m : Model) :
  well_formed m ->
  candidate str_lower m = Ok (if is_gemini_generator m then name_of m else None).
Proof.
  intros [[n Hn] Hm]. unfold candidate, is_gemini_generator, name_of.
  rewrite Hn. destruct (contains (lit "gemini") (str_lower n)); simpl; [|reflexivity].
  destruct (supported_generation_methods m) as [| |[|x methods]]; simpl;
    try reflexivity; try contradiction.
  rewrite orb_false_r.
  match goal with |- (if ?b then _ else _) = _ => destruct b end; reflexivity.
Qed.

Lemma candidate_raises_Exception (m : Model) e :
  candidate str_lower m = Raise e -> is_Exception e = true.
Proof.
  unfold candidate. destruct (model_name m) as [| |n]; try discriminate.
  - intros H. inversion H. reflexivity.
  - destruct (contains _ _); try discriminate.
    destruct (supported_generation_methods m) as [| |methods]; try discriminate.
    + intros H. inversion H. reflexivity.
    + match goal with |- (if ?b then _ else _) = _ -> _ => destruct b end;
        discriminate.
Qed.

Lemma collect_raises_Exception models acc e :
  collect str_lower models acc = Raise e -> is_Exception e = true.
Proof.
  revert acc. induction models as [|m models IH]; intros acc; simpl; [discriminate|].
  destruct (candidate str_lower m) as [[n|]|e'] eqn:Hc.
  - apply IH.
  - apply IH.
  - intros H. inversion H; subst. now apply candidate_raises_Exception in Hc.
Qed.

Lemma resolve_try_raises (listing : result (list Model)) e :
  resolve_try str_lower listing = Raise e ->
  is_Exception e = true \/ listing = Raise e.
Proof.
  unfold resolve_try. destruct listing as [models|e0].
  - destruct (collect str_lower models []) as [[|first rest]|e'] eqn:Hc.
    + destruct models as [|m models]; [discriminate|].
      destruct (model_name m); try discriminate.
      intros H. inversion H. now left.
    + discriminate.
    + intros H. inversion H; subst. left. now apply collect_raises_Exception in Hc.
  - intros H. inversion H. now right.
Qed.

(** On well-formed models the loop gathers the names of the kept models,
    in order. *)
Lemma collect_well_formed models acc :
  Forall well_formed models ->
  exists kept,
    collect str_lower models acc = Ok (acc ++ kept) /\
    match find is_gemini_generator models with
    | Some m => exists n rest, name_of m = Some n /\ kept = n :: rest
    | None => kept = []
    end.
Proof.
  intros Hwf. revert acc. induction Hwf as [|m models Hm _ IH]; intros acc; simpl.
  - exists []. split; [now rewrite app_nil_r | reflexivity].
  - rewrite (candidate_well_formed Hm).
    destruct (is_gemini_generator m) eqn:Hgen.
    + destruct Hm as [[n Hn] _]. unfold name_of. rewrite Hn.
      destruct (IH (acc ++ [n])) as (kept & Hk & _).
      exists (n :: kept). split.
      * rewrite Hk, <- app_assoc. reflexivity.
      * now exists n, kept.
    + exact (IH acc).
Qed.

(** The resolver always binds a string: the [None] that line 51 could
    read from a nameless first model is never reached, because the loop
    has failed on that model before. *)
Lemma AVAILABLE_MODEL_is_str (listing : result (list Model)) :
  AVAILABLE_MODEL str_lower listing <> Ok None.
Proof.
  unfold AVAILABLE_MODEL, resolve_try. destruct listing as [[|m models]|e].
  - discriminate.
  - cbn [collect]. unfold candidate.
    destruct (model_name m) as [| |n] eqn:Hn.
    + destruct (collect str_lower models []) as [[|first rest]|e]; simpl;
        try discriminate. now destruct (is_Exception e).
    + discriminate.
    + match goal with
      | |- match match ?X with _ => _ end with _ => _ end <> _ =>
          destruct X as [[|first rest]|e]
      end; simpl; try discriminate.
      now destruct (is_Exception e).
  - simpl. now destruct (is_Exception e).
Qed.

(** A model that the loop can examine without an exception: its name is
    not [None], and when the name is gemini-like its generation methods are
    not [None]. A model without name is passed over. *)
Definition examinable (m : Model) : bool :=
  match model_name m with
  | AttrMissing => true
  | AttrNone => false
  | AttrVal n =>
      if contains (lit "gemini") (str_lower n) then
        match supported_generation_methods m with
        | AttrNone => false
        | _ => true
        end
      else true
  end.

Definition name_or_fallback (m : Model) : str :=
  match name_of m with
  | Some n => n
  | None => fallback_model
  end.

(** What the resolver binds for a listing, said directly: the fallback
    when some model cannot be examined; else the first kept model; else the
    first model listed, when it has a name; else the fallback. *)
Definition selected (models : list Model) : str :=
  if forallb examinable models then
    match find is_gemini_generator models with
    | Some first => name_or_fallback first
    | None =>
        match models with
        | m :: _ => name_or_fallback m
        | [] => fallback_model
        end
    end
  else fallback_model.

Lemma candidate_examinable (m : Model) :
  examinable m = true ->
  candidate str_lower m = Ok (if is_gemini_generator m then name_of m else None).
Proof.
  unfold examinable, candidate, is_gemini_generator, name_of.
  destruct (model_name m) as [| |n]; try reflexivity; try discriminate.
  destruct (contains (lit "gemini") (str_lower n)); simpl; [|reflexivity].
  destruct (supported_generation_methods m) as [| |[|x methods]]; simpl;
    try reflexivity; try discriminate.
  intros _. rewrite orb_false_r.
  match goal with |- (if ?b then _ else _) = _ => destruct b end; reflexivity.
Qed.

Lemma candidate_not_examinable (m : Model) :
  examinable m = false -> exists e, candidate str_lower m = Raise e.
Proof.
  unfold examinable, candidate.
  destruct (model_name m) as [| |n]; try discriminate; [eauto|].
  destruct (contains (lit "gemini") (str_lower n)); [|discriminate].
  destruct (supported_generation_methods m); try discriminate. eauto.
Qed.

Lemma generator_has_name (m : Model) :
  is_gemini_generator m = true -> exists n, name_of m = Some n.
Proof.
  unfold is_gemini_generator, name_of.
  destruct (model_name m) as [| |n]; try discriminate. eauto.
Qed.

Lemma collect_examinable models acc :
  forallb examinable models = true ->
  exists kept,
    collect str_lower models acc = Ok (acc ++ kept) /\
    match find is_gemini_generator models with
    | Some m => exists n rest, name_of m = Some n /\ kept = n :: rest
    | None => kept = []
    end.
Proof.
  revert acc. induction models as [|m models IH]; intros acc; simpl.
  - exists []. split; [now rewrite app_nil_r | reflexivity].
  - intros H. apply andb_true_iff in H as [Hm Hrest].
    rewrite (candidate_examinable _ Hm).
    destruct (is_gemini_generator m) eqn:Hgen.
    + destruct (generator_has_name _ Hgen) as [n Hn]. rewrite Hn.
      destruct (IH (acc ++ [n]) Hrest) as (kept & Hk & _).
      exists (n :: kept). split.
      * rewrite Hk, <- app_assoc. reflexivity.
      * now exists n, kept.
    + exact (IH acc Hrest).
Qed.

Lemma collect_not_examinable models acc :
  forallb examinable models = false ->
  exists e, collect str_lower models acc = Raise e.
Proof.
  revert acc. induction models as [|m models IH]; intros acc; simpl; [discriminate|].
  destruct (examinable m) eqn:Hm; simpl.
  - intros Hrest. rewrite (candidate_examinable _ Hm).
    destruct (is_gemini_generator m); [|now apply IH].
    destruct (name_of m); now apply IH.
  - intros _. destruct (candidate_not_examinable _ Hm) as [e ->]. eauto.
Qed.

(** C5 (amended): when the listing raises an instance of [Exception],
    lists nothing, or a listed model cannot be examined (its name is
    [None], or its name is gemini-like and its generation methods are
    [None]), the resolver yields the hard-coded ["gemini-pro"]; it lets
    through only what the listing raised outside [Exception]; otherwise it
    yields the name of the first model that has a name whose lower case
    contains ["gemini"] and whose generation methods contain
    ["generateContent"] or are empty or absent, or else, when no model is
    such, the name of the first model listed, or ["gemini-pro"] when that
    model has no name. *)
Theorem resolver_fallbacks :
  fallback_model = lit "gemini-pro" /\
  (forall e, is_Exception e = true ->
     AVAILABLE_MODEL str_lower (Raise e) = Ok (Some fallback_model)) /\
  AVAILABLE_MODEL str_lower (Ok []) = Ok (Some fallback_model) /\
  (forall models e, collect str_lower models [] = Raise e ->
     AVAILABLE_MODEL str_lower (Ok models) = Ok (Some fallback_model)) /\
  (forall listing e, AVAILABLE_MODEL str_lower listing = Raise e ->
     listing = Raise e /\ is_Exception e = false) /\
  (forall m models, Forall well_formed (m :: models) ->
     AVAILABLE_MODEL str_lower (Ok (m :: models))
     = Ok (match find is_gemini_generator (m :: models) with
           | Some first => name_of first
           | None => name_of m
           end)) /\
  (forall models,
     AVAILABLE_MODEL str_lower (Ok models) = Ok (Some (selected models))) /\
  (forall models,
     forallb examinable models = false -> selected models = fallback_model) /\
  (forall models first,
     forallb examinable models = true ->
     find is_gemini_generator models = Some first ->
     name_of first = Some (selected models)) /\
  (forall m models,
     forallb examinable (m :: models) = true ->
     find is_gemini_generator (m :: models) = None ->
     selected (m :: models) = name_or_fallback m).
Proof.
  split; [reflexivity|]. split; [|split; [reflexivity|split; [|split; [|split; [|split; [|split; [|split]]]]]]].
  - intros e He. unfold AVAILABLE_MODEL. simpl. now rewrite He.
  - intros models e Hc. unfold AVAILABLE_MODEL, resolve_try. rewrite Hc.
    now rewrite (collect_raises_Exception _ _ Hc).
  - intros listing e. unfold AVAILABLE_MODEL.
    destruct (resolve_try str_lower listing) as [v|e'] eqn:Hr; [discriminate|].
    destruct (is_Exception e') eqn:He'; [discriminate|].
    intros H. inversion H; subst.
    destruct (resolve_try_raises _ Hr) as [Habs|Hl]; [congruence | now split].
  - intros m models Hwf. unfold AVAILABLE_MODEL, resolve_try.
    destruct (collect_well_formed [] Hwf) as (kept & Hk & Hfind).
    rewrite Hk. simpl app.
    destruct (find is_gemini_generator (m :: models)) as [first|].
    + destruct Hfind as (n & rest & Hn & ->). now rewrite Hn.
    + subst kept. inversion Hwf as [|? ? [[n Hn] _] _]; subst.
      unfold name_of. now rewrite Hn.
- intros models. unfold AVAILABLE_MODEL, resolve_try, selected.
    destruct (forallb examinable models) eqn:Hex.
    + destruct (@collect_examinable models [] Hex) as (kept & Hk & Hfind).
      rewrite Hk. simpl app.
      destruct (find is_gemini_generator models) as [first|].
      * destruct Hfind as (n & rest & Hn & ->). unfold name_or_fallback.
        now rewrite Hn.
      * subst kept. destruct models as [|m models]; [reflexivity|].
        simpl in Hex. apply andb_true_iff in Hex as [Hm _].
        unfold name_or_fallback, name_of. unfold examinable in Hm.
        destruct (model_name m); try reflexivity. discriminate.
    + destruct (@collect_not_examinable models [] Hex) as [e Hc]. rewrite Hc.
      now rewrite (collect_raises_Exception _ _ Hc).
  - intros models Hex. unfold selected. now rewrite Hex.
  - intros models first Hex Hfind. unfold selected. rewrite Hex, Hfind.
    apply find_some in Hfind as [_ Hgen].
    destruct (generator_has_name _ Hgen) as [n Hn].
    unfold name_or_fallback. now rewrite Hn.
  - intros m models Hex Hfind. unfold selected. now rewrite Hex, Hfind.
Qed.

End WithLower.

End ResolverFacts.

(* ================================================================= *)
(** ** What each method adds to the trace *)

Lemma only_bind_post P {A B} (Q : A -> Prop) (c : M A) (k : A -> M B) :
  only P c -> (forall w a, fst (c w) = Ok a -> Q a) ->
  (forall a, Q a -> only P (k a)) -> only P (bind c k).
Proof.
  intros Hc Hq Hk w. destruct (Hc w) as (e1 & H1 & F1). specialize (Hq w).
  unfold appended, bind in *. destruct (c w) as [[a|e] w1]; simpl in *.
  - destruct (Hk a (Hq a eq_refl) w1) as (e2 & H2 & F2). exists (e1 ++ e2). split.
    + unfold appended in H2. now rewrite H2, H1, app_assoc.
    + apply Forall_app. now split.
  - now exists e1.
Qed.

Section Traces.

Variable str_lower : str -> str.
Variable E : Env.
Variable AVAILABLE_MODEL : str.
Variable P : event -> Prop.

Ltac quiet :=
  repeat match goal with
    | |- only _ (ret _) => apply only_ret
    | |- only _ (raise _) => apply only_raise
    | |- only _ (sys_exit _) => apply only_raise
    | |- only _ (lift _) => apply only_lift
    | |- only _ (emit _) => apply only_emit; solve [auto]
    | |- only _ (bind _ _) => apply only_bind; [|intros]
    | |- only _ (try_except _ _ _) => apply only_try_except; [|intros]
    end.

Lemma only_input : P EvInput -> only P (input E).
Proof. intros H. unfold input. quiet. Qed.

Lemma only_exists_ p : P (EvExists p) -> only P (exists_ E p).
Proof. intros H. unfold exists_. quiet. Qed.

Lemma only_subprocess_run argv : P (EvSubprocess argv) -> only P (subprocess_run E argv).
Proof. intros H. unfold subprocess_run. quiet. Qed.

Lemma only_read_file p : P (EvRead p) -> only P (read_file E p).
Proof. intros H. unfold read_file. quiet. Qed.

Lemma only_time_time : only P (time_time E).
Proof.
  intros w. exists []. split; [|constructor].
  unfold appended, time_time. simpl. now rewrite app_nil_r.
Qed.

Lemma only_generate_content m c :
  (forall t, P (EvGenerate t m c)) -> only P (generate_content E m c).
Proof.
  intros H w. exists [EvGenerate (now_ns w) m c]. split; [reflexivity|].
  repeat constructor. apply H.
Qed.

Lemma only_time_sleep secs :
  (forall t, P (EvSleep t secs)) -> only P (time_sleep E secs).
Proof.
  intros H w. exists [EvSleep (now_ns w) secs]. split.
  - unfold appended, time_sleep. destruct (env_sleep E); reflexivity.
  - repeat constructor. apply H.
Qed.

Lemma only_write_json p d :
  (forall c, P (EvWrite p d c)) -> only P (write_json E p d).
Proof.
  intros H. unfold write_json. destruct (env_write E p); quiet.
Qed.

Lemma only_init json_file :
  (forall p, P (EvExists p)) -> only P (init E json_file).
Proof.
  intros H. unfold init. apply only_bind; [now apply only_exists_|].
  intros found. destruct (negb found); [quiet|].
  destruct (negb _); quiet.
Qed.

(** The output path of the converter (lines 78-79). *)
Definition toon_path_of (json_path : Path) : Path :=
  truediv (parent json_path) (stem json_path ++ lit "_output.toon").

Lemma only_convert_to_toon self :
  P (EvSubprocess (converter_argv (json_file_path self)
                                  (toon_path_of (json_file_path self)))) ->
  only P (convert_to_toon E self).
Proof.
  intros H. unfold convert_to_toon. simpl. quiet.
  now apply only_subprocess_run.
Qed.

Lemma only_load_contents self :
  (forall p, P (EvRead p)) -> only P (load_contents E self).
Proof.
  intros H. unfold load_contents. apply only_bind; [now apply only_read_file|].
  intros json. destruct (toon_file_path self); quiet. now apply only_read_file.
Qed.

Lemma only_text_strip response : only P (text_strip response).
Proof. unfold text_strip. destruct response; quiet. Qed.

Lemma only_query_llm data fmt q :
  (forall t m c, P (EvGenerate t m c)) ->
  only P (query_llm E AVAILABLE_MODEL data fmt q).
Proof.
  intros H. unfold query_llm. quiet.
  - apply only_time_time.
  - now apply only_generate_content.
  - apply only_time_time.
  - apply only_text_strip.
Qed.

Lemma only_run_test self q :
  (forall t m c, P (EvGenerate t m c)) -> (forall t s, P (EvSleep t s)) ->
  only P (run_test E AVAILABLE_MODEL self q).
Proof.
  intros Hg Hs. unfold run_test. quiet.
  - now apply only_query_llm.
  - now apply only_time_sleep.
  - now apply only_query_llm.
Qed.

Lemma only_getitem results k : only P (getitem results k).
Proof. unfold getitem. destruct (get results k); quiet. Qed.

Lemma only_as_float v : only P (as_float v).
Proof. unfold as_float. destruct v; quiet. Qed.

Lemma only_as_str v : only P (as_str v).
Proof. unfold as_str. destruct v; quiet. Qed.

Lemma only_display_results results :
  (forall rv lv, P (EvReport rv lv)) -> only P (display_results str_lower results).
Proof.
  intros H. unfold display_results.
  quiet; auto using only_getitem, only_as_float, only_as_str.
Qed.

Lemma only_save_results self results :
  (forall p d c, P (EvWrite p d c)) -> only P (save_results E self results).
Proof. intros H. unfold save_results. now apply only_write_json. Qed.

Lemma only_get_question tokens : P EvInput -> only P (get_question E tokens).
Proof.
  intros H. unfold get_question. destruct tokens; [|quiet].
  apply only_bind; [now apply only_input|].
  intros line. destruct (strip line); quiet.
Qed.

(** The path of the object is set by the constructor and never changed. *)
Lemma init_path json_file w self :
  fst (init E json_file w) = Ok self -> json_file_path self = of_str json_file.
Proof.
  unfold init, bind, exists_, emit, ret. simpl.
  destruct (negb (env_exists E (of_str json_file))); simpl; [discriminate|].
  destruct (negb _); simpl; [discriminate|].
  intros H. inversion H. reflexivity.
Qed.

Lemma convert_to_toon_path self w self' :
  fst (convert_to_toon E self w) = Ok self' ->
  json_file_path self' = json_file_path self.
Proof.
  unfold convert_to_toon, try_except, bind, subprocess_run, emit, lift, ret. simpl.
  destruct (env_subprocess E _) as [[]|e]; simpl.
  - intros H. inversion H. reflexivity.
  - destruct (_ || _); simpl; discriminate.
Qed.

Lemma load_contents_path self w self' :
  fst (load_contents E self w) = Ok self' ->
  json_file_path self' = json_file_path self.
Proof.
  unfold load_contents, bind, read_file, emit, lift. simpl.
  destruct (env_read E (json_file_path self)) as [json|e]; simpl; [|discriminate].
  destruct (toon_file_path self) as [toon_path|]; simpl; [|discriminate].
  destruct (env_read E toon_path) as [toon|e]; simpl; [|discriminate].
  intros H. inversion H. reflexivity.
Qed.

End Traces.

(* ================================================================= *)
(** ** Paths: the name and suffix of a parsed string *)

Section PathFacts.

Local Open Scope N_scope.

Lemma split_not_nil sep s : split sep s <> [].
Proof.
  destruct s as [|c s]; simpl; [discriminate|].
  destruct (c =? sep); [discriminate|].
  destruct (split sep s); discriminate.
Qed.

Lemma split_no_sep sep u :
  Forall (fun c => c <> sep) u -> split sep u = [u].
Proof.
  induction 1 as [|c u Hc _ IH]; simpl; [reflexivity|].
  apply N.eqb_neq in Hc. now rewrite Hc, IH.
Qed.

(** Appending text without separator extends the last piece. *)
Lemma split_app_no_sep sep pre u :
  Forall (fun c => c <> sep) u ->
  split sep (pre ++ u)
  = removelast (split sep pre) ++ [last (split sep pre) [] ++ u].
Proof.
  intros Hu. induction pre as [|c pre IH]; simpl.
  - now apply split_no_sep.
  - destruct (c =? sep).
    + rewrite IH. pose proof (split_not_nil sep pre) as Hne.
      destruct (split sep pre) as [|piece rest]; [contradiction|]. reflexivity.
    + rewrite IH. pose proof (split_not_nil sep pre) as Hne.
      destruct (split sep pre) as [|piece [|r rs]]; [contradiction| |]; reflexivity.
Qed.

Lemma last_snoc {A} (l : list A) (x d : A) : last (l ++ [x]) d = x.
Proof.
  induction l as [|a l IH]; simpl; [reflexivity|].
  destruct (l ++ [x]) eqn:Hl; [now destruct l | exact IH].
Qed.

Lemma rfind_absent c s : Forall (fun x => x <> c) s -> rfind c s = None.
Proof.
  induction 1 as [|x s Hx _ IH]; simpl; [reflexivity|].
  apply N.eqb_neq in Hx. now rewrite IH, Hx.
Qed.

Lemma rfind_app c x y i :
  rfind c y = Some i -> rfind c (x ++ y) = Some (length x + i)%nat.
Proof.
  intros Hy. induction x as [|a x IH]; simpl; [exact Hy|]. now rewrite IH.
Qed.

Lemma skipn_length_app {A} (x y : list A) : skipn (length x) (x ++ y) = y.
Proof. induction x as [|a x IH]; simpl; [reflexivity | exact IH]. Qed.

(** The suffix of a name that ends in a dot followed by dot-free text. *)
Lemma suffix_of_name root_ front x rest :
  Forall (fun c => c <> dot) rest ->
  suffix (mkPath root_ (front ++ [x ++ dot :: rest]))
  = match x, rest with
    | _ :: _, _ :: _ => dot :: rest
    | _, _ => []
    end.
Proof.
  intros Hrest. unfold suffix, name. simpl tail. rewrite last_snoc.
  assert (Hfind : rfind dot (x ++ dot :: rest) = Some (length x + 0)%nat).
  { apply rfind_app. simpl. now rewrite (rfind_absent Hrest). }
  rewrite Hfind, Nat.add_0_r, length_app. simpl length.
  destruct x as [|a x]; [reflexivity|].
  destruct rest as [|b rest].
  - erewrite (proj2 (Nat.ltb_ge (length (a :: x)) _)) by (simpl; lia).
    now rewrite andb_false_r.
  - erewrite (proj2 (Nat.ltb_lt (length (a :: x)) _)) by (simpl; lia).
    simpl andb. cbv iota. apply (skipn_length_app (a :: x)).
Qed.

(** A path string that ends in a dot and an extension free of dots and
    slashes has that extension as its suffix, or none when the name starts
    with that dot. *)
Lemma suffix_of_str_ends pre rest :
  rest <> [] ->
  Forall (fun c => c <> dot) rest -> Forall (fun c => c <> slash) rest ->
  suffix (of_str (pre ++ dot :: rest)) = []
  \/ suffix (of_str (pre ++ dot :: rest)) = dot :: rest.
Proof.
  intros Hne Hdot Hslash. unfold of_str, parse_tail.
  rewrite split_app_no_sep by (constructor; [discriminate | exact Hslash]).
  rewrite filter_app. simpl filter.
  set (x := last (split slash pre) []).
  assert (Hkeep : keep_component (x ++ dot :: rest) = true).
  { unfold keep_component. destruct x as [|a x]; simpl.
    - destruct rest as [|b rest]; [contradiction | reflexivity].
    - destruct (a =? dot); [|reflexivity]. now destruct x. }
  rewrite Hkeep, (suffix_of_name _ _ x Hdot).
  destruct x, rest; auto.
Qed.

End PathFacts.

(* ================================================================= *)
(** ** The constructor *)

(** C10: the constructor looks the path up first: a path that does not
    exist raises FileNotFoundError whatever its suffix; on an existing path
    it raises ValueError exactly when the suffix is not the string
    [".json"], compared as it is, so that a path ending in [".JSON"] or
    [".Json"] is refused. *)
Theorem init_checks_existence_then_suffix (E : Env) (json_file : str) (w : World) :
  let p := of_str json_file in
  let r := fst (init E json_file w) in
  trace (snd (init E json_file w)) = trace w ++ [EvExists p] /\
  (env_exists E p = false ->
     r = Raise (Exception_ FileNotFoundError
                  (lit "JSON file not found: " ++ json_file))) /\
  (env_exists E p = true ->
     (r = Raise (Exception_ ValueError (lit "File must have .json extension"))
      <-> suffix p <> lit ".json") /\
     (r = Ok (mkTest p None None None) <-> suffix p = lit ".json")) /\
  (forall front, suffix (of_str (front ++ lit ".JSON")) <> lit ".json") /\
  (forall front, suffix (of_str (front ++ lit ".Json")) <> lit ".json").
Proof.
  intros p r. subst r. unfold init, bind, exists_, emit, ret, raise. simpl.
  fold p. split; [|split; [|split; [|split]]].
  - destruct (negb (env_exists E p)); [reflexivity|].
    destruct (negb _); reflexivity.
  - intros ->. reflexivity.
  - intros ->. simpl.
    destruct (str_eqb (suffix p) (lit ".json")) eqn:Hs; simpl.
    + apply str_eqb_eq in Hs. split; split; congruence.
    + apply str_eqb_neq in Hs. split; split; congruence.
  - intros front.
    destruct (@suffix_of_str_ends front (lit "JSON")) as [H|H];
      try (repeat constructor; discriminate); try discriminate;
      change (front ++ lit ".JSON") with (front ++ dot :: lit "JSON");
      rewrite H; discriminate.
  - intros front.
    destruct (@suffix_of_str_ends front (lit "Json")) as [H|H];
      try (repeat constructor; discriminate); try discriminate;
      change (front ++ lit ".Json") with (front ++ dot :: lit "Json");
      rewrite H; discriminate.
Qed.

(* ================================================================= *)
(** ** main *)

Definition is_subprocess (ev : event) : bool :=
  match ev with
  | EvSubprocess _ => true
  | _ => false
  end.

(** How many times the converter was started. *)
Definition converter_runs (evs : list event) : nat :=
  length (filter is_subprocess evs).


(** Every run of [c] starts the converter at most [n] times. *)
Definition at_most (n : nat) {A} (c : M A) : Prop :=
  forall w, exists evs, appended c w evs /\ converter_runs evs <= n.

Lemma converter_runs_app e1 e2 :
  converter_runs (e1 ++ e2) = converter_runs e1 + converter_runs e2.
Proof. unfold converter_runs. now rewrite filter_app, length_app. Qed.

Lemma at_most_quiet {A} (c : M A) :
  only (fun ev => is_subprocess ev = false) c -> at_most 0 c.
Proof.
  intros Hc w. destruct (Hc w) as (evs & Ha & Hf). exists evs. split; [exact Ha|].
  unfold converter_runs. clear Ha.
  induction Hf as [|ev evs Hev _ IH]; simpl; [lia|]. now rewrite Hev.
Qed.

Lemma at_most_weaken n m {A} (c : M A) : n <= m -> at_most n c -> at_most m c.
Proof.
  intros Hnm Hc w. destruct (Hc w) as (evs & Ha & Hn). exists evs. split; [exact Ha | lia].
Qed.

Lemma at_most_bind n m {A B} (c : M A) (k : A -> M B) :
  at_most n c -> (forall a, at_most m (k a)) -> at_most (n + m) (bind c k).
Proof.
  intros Hc Hk w. destruct (Hc w) as (e1 & H1 & F1).
  unfold appended, bind in *. destruct (c w) as [[a|e] w1]; simpl in *.
  - destruct (Hk a w1) as (e2 & H2 & F2). exists (e1 ++ e2). split.
    + unfold appended in H2. now rewrite H2, H1, app_assoc.
    + rewrite converter_runs_app. lia.
  - exists e1. split; [exact H1 | lia].
Qed.

Lemma at_most_try_except n m {A} (body : M A) catches handler :
  at_most n body -> (forall e, at_most m (handler e)) ->
  at_most (n + m) (try_except body catches handler).
Proof.
  intros Hb Hh w. destruct (Hb w) as (e1 & H1 & F1).
  unfold appended, try_except in *. destruct (body w) as [[a|e] w1]; simpl in *.
  - exists e1. split; [exact H1 | lia].
  - destruct (catches e); simpl.
    + destruct (Hh e w1) as (e2 & H2 & F2). exists (e1 ++ e2). split.
      * unfold appended in H2. now rewrite H2, H1, app_assoc.
      * rewrite converter_runs_app. lia.
    + exists e1. split; [exact H1 | lia].
Qed.

Section Main.

Variable str_lower : str -> str.
Variable E : Env.
Variable AVAILABLE_MODEL : str.

(** C7: with a file argument and no question tokens, a line from the
    prompt that is empty or all whitespace ends the process with status 1;
    by then the prompt is the only thing that happened: no path was looked
    up (no test object was built) and no converter was started. *)
Theorem blank_question_exits_before_conversion (prog json_file line : str)
  (w : World) :
  env_stdin E = Ok line -> all_whitespace line ->
  let run := main str_lower E AVAILABLE_MODEL [prog; json_file] w in
  fst run = Raise (SystemExit 1) /\
  terminate (fst run) = Exited 1 /\
  exists evs,
    trace (snd run) = trace w ++ evs /\ evs = [EvInput] /\
    (forall argv, ~ In (EvSubprocess argv) evs) /\
    (forall p, ~ In (EvExists p) evs).
Proof.
  intros Hin Hblank run. apply strip_empty_iff in Hblank.
  assert (Hrun : run = (Raise (SystemExit 1),
                        mkWorld (now_ns w) (trace w ++ [EvInput])
                                (api_calls w) (clock_reads w))).
  { subst run. unfold main, get_question, input, bind, emit, lift.
    simpl. rewrite Hin, Hblank. reflexivity. }
  rewrite Hrun. simpl. split; [reflexivity|]. split; [reflexivity|].
  exists [EvInput]. repeat split.
  - intros argv [H|[]]. discriminate.
  - intros p [H|[]]. discriminate.
Qed.






Lemma convert_to_toon_trace self w :
  trace (snd (convert_to_toon E self w))
  = trace w ++ [EvSubprocess (converter_argv (json_file_path self)
                                             (toon_path_of (json_file_path self)))].
Proof.
  unfold convert_to_toon, try_except, bind, subprocess_run, emit, lift, ret,
    sys_exit, raise. simpl.
  destruct (env_subprocess E _) as [[]|e]; simpl; [reflexivity|].
  destruct (_ || _); reflexivity.
Qed.


Lemma display_results_ok results w u w1 :
  display_results str_lower results w = (Ok u, w1) ->
  exists rv lv, trace w1 = trace w ++ [EvReport rv lv].
Proof.
  unfold display_results, getitem, as_float, as_str, bind, emit, ret, raise.
  destruct (get results (lit "question")) as [v0|]; [|discriminate].
  destruct (get results (lit "json_time")) as [[s|jt]|]; try discriminate.
  destruct (get results (lit "json_response")) as [[jr|f]|]; try discriminate.
  destruct (get results (lit "toon_time")) as [[s|tt]|]; try discriminate.
  destruct (get results (lit "toon_response")) as [[tr|f]|]; try discriminate.
  intros H. inversion H; subst. simpl. eauto.
Qed.



(** The output path of the converter, component by component. *)
Lemma split_pieces_no_sep sep s :
  Forall (Forall (fun c => c <> sep)) (split sep s).
Proof.
  induction s as [|c s IH]; simpl; [repeat constructor|].
  destruct (N.eqb_spec c sep) as [Heq|Hneq].
  - constructor; [constructor | exact IH].
  - destruct (split sep s) as [|piece rest]; [repeat constructor; exact Hneq|].
    inversion IH; subst. constructor; [now constructor | assumption].
Qed.

Lemma Forall_prefix {A} (Q : A -> Prop) n (l : list A) :
  Forall Q l -> Forall Q (firstn n l).
Proof.
  intros Hl. revert n. induction Hl as [|a l Ha _ IH]; intros [|n]; simpl;
    constructor; auto.
Qed.

Lemma stem_no_slash s : Forall (fun c => c <> slash) (stem (of_str s)).
Proof.
  assert (Hname : Forall (fun c => c <> slash) (name (of_str s))).
  { unfold name, of_str, parse_tail. simpl.
    assert (Hall : Forall (Forall (fun c => c <> slash))
                          (filter keep_component (split slash s))).
    { apply Forall_forall. intros x Hx. apply filter_In in Hx as [Hx _].
      revert x Hx. apply Forall_forall, split_pieces_no_sep. }
    induction Hall as [|x l Hx _ IH]; simpl; [constructor|].
    destruct l; [exact Hx | exact IH]. }
  unfold stem. destruct (rfind dot (name (of_str s))) as [i|]; [|exact Hname].
  destruct (_ && _); [|exact Hname].
  now apply Forall_prefix.
Qed.

Lemma toon_path_of_str s :
  let p := of_str s in
  toon_path_of p
  = mkPath (root p) (removelast (tail p) ++ [stem p ++ lit "_output.toon"]).
Proof.
  intros p. unfold toon_path_of, truediv.
  pose proof (stem_no_slash s) as Hstem. fold p in Hstem.
  set (x := stem p ++ lit "_output.toon").
  assert (Hx : Forall (fun c => c <> slash) x).
  { subst x. apply Forall_app. split; [exact Hstem|].
    repeat constructor; discriminate. }
  assert (Hstart : startswith [slash] x = false).
  { subst x. destruct (stem p) as [|a st]; [reflexivity|].
    inversion Hstem as [|? ? Ha _]; subst. apply N.eqb_neq in Ha.
    cbn [startswith app]. rewrite N.eqb_sym, Ha. reflexivity. }
  assert (Hkeep : keep_component x = true).
  { subst x. unfold keep_component. destruct (stem p) as [|a [|b st]]; simpl.
    - reflexivity.
    - now rewrite andb_false_r.
    - now rewrite andb_false_r. }
  rewrite Hstart. unfold parse_tail. rewrite (split_no_sep Hx). simpl filter.
  rewrite Hkeep. unfold parent.
  destruct (tail p) eqn:Htail; cbn [root tail]; rewrite ?Htail; reflexivity.
Qed.

Lemma main_at_most_once argv : at_most 1 (main str_lower E AVAILABLE_MODEL argv).
Proof.
  unfold main. destruct argv as [|prog [|json_file tokens]].
  - apply (@at_most_weaken 0); [lia | apply at_most_quiet, only_raise].
  - apply (@at_most_weaken 0); [lia | apply at_most_quiet, only_raise].
  - change 1 with (0 + ((0 + (1 + 0)) + 0)).
    apply at_most_bind; [apply at_most_quiet, only_get_question; reflexivity|].
    intros question. apply at_most_try_except.
    + unfold main_try. apply at_most_bind.
      * apply at_most_quiet, only_init. reflexivity.
      * intros t0. apply at_most_bind.
        -- intros w.
           destruct (@only_convert_to_toon E (fun _ => True) t0 I w) as (evs & Ha & _).
           exists evs. split; [exact Ha|].
           unfold appended, convert_to_toon, try_except, bind, subprocess_run,
             emit, lift, ret, sys_exit, raise in Ha. simpl in Ha.
           destruct (env_subprocess E _) as [[]|e]; simpl in Ha;
             [|destruct (_ || _); simpl in Ha];
             apply app_inv_head in Ha; subst evs; exact (le_n 1).
        -- intros t1. apply at_most_quiet.
           apply only_bind; [apply only_load_contents; reflexivity|]. intros t2.
           apply only_bind; [apply only_run_test; reflexivity|]. intros res.
           apply only_bind; [apply only_display_results; reflexivity|]. intros _.
           apply only_save_results. reflexivity.
    + intros e. apply at_most_quiet. destruct (is_KeyboardInterrupt e); apply only_raise.
Qed.

Lemma converter_runs_In (args : list str) (evs : list event) :
  In (EvSubprocess args) evs -> 1 <= converter_runs evs.
Proof.
  unfold converter_runs. induction evs as [|ev evs IH]; simpl; [contradiction|].
  intros [->|Hin]; simpl; [lia|].
  destruct (is_subprocess ev); simpl; [lia | now apply IH].
Qed.

(** For an existing [.json] file, once the question is known, [main] looks
    the path up and then starts the converter on it. *)
Lemma main_starts_converter prog json_file tokens question w wq :
  get_question E tokens w = (Ok question, wq) ->
  env_exists E (of_str json_file) = true ->
  suffix (of_str json_file) = lit ".json" ->
  exists asked rest,
    trace (snd (main str_lower E AVAILABLE_MODEL (prog :: json_file :: tokens) w))
    = trace w ++ asked
      ++ [EvExists (of_str json_file);
          EvSubprocess (converter_argv (of_str json_file)
                                       (toon_path_of (of_str json_file)))]
      ++ rest.
Proof.
  intros Hq Hex Hsuf.
  destruct (@only_get_question E (fun _ => True) tokens I w) as (asked & H0 & _).
  unfold appended in H0. rewrite Hq in H0. simpl in H0.
  assert (Hmain :
    trace (snd (main str_lower E AVAILABLE_MODEL (prog :: json_file :: tokens) w))
    = trace (snd (main_try str_lower E AVAILABLE_MODEL json_file question wq))).
  { unfold main. rewrite (bind_ok _ Hq). unfold try_except.
    destruct (main_try str_lower E AVAILABLE_MODEL json_file question wq)
      as [[u|e] w']; [reflexivity|].
    destruct (is_KeyboardInterrupt e || is_Exception e); [|reflexivity].
    destruct (is_KeyboardInterrupt e); reflexivity. }
  rewrite Hmain.
  assert (Hinit : init E json_file wq
                  = (Ok (mkTest (of_str json_file) None None None),
                     mkWorld (now_ns wq) (trace wq ++ [EvExists (of_str json_file)])
                             (api_calls wq) (clock_reads wq))).
  { unfold init, bind, exists_, emit, ret. simpl. rewrite Hex, Hsuf. reflexivity. }
  unfold main_try. rewrite (bind_ok _ Hinit).
  set (t0 := mkTest _ _ _ _). set (w0 := mkWorld _ _ _ _).
  pose proof (convert_to_toon_trace t0 w0) as Hc.
  destruct (convert_to_toon E t0 w0) as [[t1|e] w1] eqn:Hconv; simpl in Hc.
  - rewrite (bind_ok _ Hconv).
    match goal with
    | |- context [bind (load_contents E t1) ?k w1] =>
        assert (Hrest : only (fun _ => True) (bind (load_contents E t1) k))
    end.
    { apply only_bind; [apply only_load_contents; now intros|]. intros t2.
      apply only_bind; [apply only_run_test; now intros|]. intros res.
      apply only_bind; [apply only_display_results; now intros|]. intros _.
      apply only_save_results. now intros. }
    destruct (Hrest w1) as (rest & Hr & _). unfold appended in Hr.
    exists asked, rest. rewrite Hr, Hc. subst w0. simpl. rewrite H0.
    rewrite <- !app_assoc. reflexivity.
  - rewrite (bind_raise _ Hconv). exists asked, []. simpl. rewrite Hc.
    subst w0. simpl. rewrite H0. rewrite <- !app_assoc. reflexivity.
Qed.

(** C8: a run of [main] starts the converter at most once; when it does,
    the argument list is ["npx"], ["@toon-format/cli"], the input path,
    ["-o"], the output path, where the output path is the parent
    directory of the input joined with the stem of the input followed by
    ["_output.toon"]; and for an existing file with suffix [".json"], once
    the question is known, it does start it, exactly once and with these
    arguments. *)
Theorem converter_invoked_at_most_once (argv : list str) (w : World) :
  exists evs,
    trace (snd (main str_lower E AVAILABLE_MODEL argv w)) = trace w ++ evs /\
    converter_runs evs <= 1 /\
    (forall args, In (EvSubprocess args) evs ->
      exists prog json_file tokens,
        argv = prog :: json_file :: tokens /\
        (let input := of_str json_file in
         let output := truediv (parent input) (stem input ++ lit "_output.toon") in
         args = [lit "npx"; lit "@toon-format/cli"; to_str input; lit "-o";
                 to_str output] /\
         output = mkPath (root input)
                         (removelast (tail input) ++ [stem input ++ lit "_output.toon"]))) /\
    (forall prog json_file tokens question wq,
       argv = prog :: json_file :: tokens ->
       get_question E tokens w = (Ok question, wq) ->
       env_exists E (of_str json_file) = true ->
       suffix (of_str json_file) = lit ".json" ->
       let input := of_str json_file in
       let output := truediv (parent input) (stem input ++ lit "_output.toon") in
       converter_runs evs = 1 /\
       In (EvSubprocess [lit "npx"; lit "@toon-format/cli"; to_str input; lit "-o";
                         to_str output]) evs).
Proof.
  destruct (main_at_most_once argv w) as (evs & Ha & Hcount).
  exists evs. split; [exact Ha|]. split; [exact Hcount|]. split.
  - destruct argv as [|prog [|json_file tokens]].
    + unfold appended in Ha. simpl in Ha.
      rewrite <- (app_nil_r (trace w)) in Ha at 1.
      apply app_inv_head in Ha. subst evs. intros args [].
    + unfold appended in Ha. simpl in Ha.
      rewrite <- (app_nil_r (trace w)) in Ha at 1.
      apply app_inv_head in Ha. subst evs. intros args [].
    + intros args Hin. exists prog, json_file, tokens. split; [reflexivity|].
      set (P := fun ev => forall a, ev = EvSubprocess a ->
                   a = converter_argv (of_str json_file) (toon_path_of (of_str json_file))).
      assert (Hmain : only P (main str_lower E AVAILABLE_MODEL (prog :: json_file :: tokens))).
      { unfold main.
        apply only_bind; [apply only_get_question; intros a Ha'; discriminate|].
        intros question. apply only_try_except.
        - unfold main_try.
          apply only_bind_post with (Q := fun t => json_file_path t = of_str json_file).
          + apply only_init. intros p a Ha'. discriminate.
          + intros w0 t. apply init_path.
          + intros t0 Ht0.
            apply only_bind; [apply only_convert_to_toon; rewrite Ht0;
                              intros a Ha'; now inversion Ha'|].
            intros t1.
            apply only_bind; [apply only_load_contents; intros p a Ha'; discriminate|].
            intros t2.
            apply only_bind; [apply only_run_test; intros; intros a Ha'; discriminate|].
            intros res.
            apply only_bind; [apply only_display_results; intros; intros a Ha'; discriminate|].
            intros _. apply only_save_results. intros p d c a Ha'. discriminate.
        - intros e. destruct (is_KeyboardInterrupt e); apply only_raise. }
      destruct (Hmain w) as (evs' & Ha' & Hall).
      unfold appended in Ha, Ha'. rewrite Ha in Ha'. apply app_inv_head in Ha'. subst evs'.
      eapply Forall_forall in Hall; eauto. specialize (Hall args eq_refl).
      split; [exact Hall | apply toon_path_of_str].
  - intros prog json_file tokens question wq -> Hq Hex Hsuf input output.
    destruct (@main_starts_converter prog json_file tokens question w wq Hq Hex Hsuf)
      as (asked & rest & Htrace).
    unfold appended in Ha. rewrite Ha in Htrace. apply app_inv_head in Htrace.
    assert (Hin : In (EvSubprocess (converter_argv input output)) evs).
    { rewrite Htrace. apply in_or_app. right. right. left. reflexivity. }
    split; [|exact Hin].
    pose proof (converter_runs_In _ _ Hin). lia.
Qed.

End Main.

(* ================================================================= *)
(** ** Worked runs *)

Module Runs.

Definition sample_model : str := lit "gemini-1.5-flash".
Definition sample_question : str := lit "How many users are older than 24?".
Definition sample_json : str := lit "[30, 25, 41]".
Definition sample_toon : str := lit "[3]: 30,25,41".

Definition sample_test : TOONParsingTest :=
  mkTest (of_str (lit "data/ages.json")) (Some (of_str (lit "data/ages_output.toon")))
         (Some sample_json) (Some sample_toon).

Definition server_error : exn :=
  Exception_ (OtherException (lit "ServerError")) (lit "503 UNAVAILABLE").

(** An environment in which everything works but the language model, whose
    calls are answered by [generate]; the prompt is answered by [line]. *)
Definition env_with (line : str) (generate : nat -> result (attr str)) : Env :=
  mkEnv (Ok line)
        (fun _ => true)
        (fun _ => Ok tt)
        (fun p => if str_eqb (suffix p) (lit ".json") then Ok sample_json else Ok sample_toon)
        (fun n _ _ => generate n)
        (fun _ => 800000000%N)
        (fun n => match n with 0 => 100 | 1 => 100.75 | 2 => 103 | _ => 103.5 end%float)
        (Slept 150000)
        (fun _ => Written).

(** The JSON call answers, the TOON call fails on the server. *)
Definition one_leg_fails : Env :=
  env_with (lit "   ")
    (fun n => match n with
              | 0 => Ok (AttrVal (lit "  Two users. "))
              | _ => Raise server_error
              end).


(** The service returns a response without text. *)
Definition no_text : Env := env_with (lit "   ") (fun _ => Ok AttrNone).

Definition sample_argv : list str :=
  [lit "script.py"; lit "data/ages.json"; lit "How"; lit "many?"].

Example one_leg_fails_run :
  terminate (fst (main ascii_lower one_leg_fails sample_model sample_argv init_world))
  = Exited 0.
Proof. reflexivity. Qed.



Lemma toon_dispatch_waits_witness :
  exists t_toon,
    trace (snd (run_test one_leg_fails sample_model sample_test sample_question
                  init_world))
    = [EvGenerate 0 sample_model (prompt (Some sample_json) (lit "JSON") sample_question);
       EvSleep 800000000 2;
       EvGenerate t_toon sample_model
                  (prompt (Some sample_toon) (lit "TOON") sample_question)] /\
    (2 * ns_per_second <= t_toon)%N.
Proof.
  destruct (@toon_dispatch_waits one_leg_fails sample_model sample_test
              sample_question init_world)
    as (evs & Htrace & _ & Hdone).
  destruct (Hdone _ eq_refl) as (t_toon & Hevs & Hlate).
  exists t_toon. split; [|exact Hlate].
  rewrite Htrace, Hevs. reflexivity.
Defined.

Lemma query_llm_text_postprocessing_witness :
  env_generate no_text 0 sample_model
    (prompt (Some sample_json) (lit "JSON") sample_question) = Ok AttrNone /\
  fst (query_llm no_text sample_model (Some sample_json) (lit "JSON")
         sample_question init_world)
  = Ok (lit "Error: 'NoneType' object has no attribute 'strip'", 0%float).
Proof.
  split; [reflexivity|].
  exact (@query_llm_text_postprocessing no_text sample_model (Some sample_json)
           (lit "JSON") sample_question init_world AttrNone eq_refl).
Defined.

Lemma latency_verdict_threshold_witness :
  exists rv,
    trace (snd (display_results ascii_lower
                  (comparison_record sample_question (lit "Two") 1.5 (lit "two") 1)
                  init_world))
    = [EvReport rv FASTER_TOON].
Proof.
  destruct (@latency_verdict_threshold ascii_lower sample_question (lit "Two")
              (lit "two") 1.5%float 1%float init_world)
    as (rv & lv & Htrace & _ & _ & Hfaster & _).
  exists rv. rewrite Htrace.
  now rewrite (proj1 (Hfaster eq_refl) eq_refl).
Defined.

Lemma ascii_lower_agrees : forall s, is_ascii s -> ascii_lower s = ascii_lower s.
Proof. reflexivity. Defined.

Lemma identical_verdict_ignores_case_witness :
  (forall s, is_ascii s -> ascii_lower s = ascii_lower s) /\
  compare_responses ascii_lower (lit "Yes") (lit "yes") = IDENTICAL /\
  compare_responses ascii_lower (lit "Yes.") (lit "Yes") = DIFFER.
Proof.
  split; [exact ascii_lower_agrees|].
  destruct (@identical_verdict_ignores_case ascii_lower ascii_lower_agrees
              sample_question (lit "Yes") (lit "yes") 1%float 1%float init_world)
    as (rv & lv & _ & _ & _ & _ & Hsame & Hdiffer).
  now split.
Defined.

(** Listings of the service. *)
Definition embedding_only : list Resolver.Model :=
  [Resolver.mkModel (AttrVal (lit "models/embedding-gecko-001"))
                    (AttrVal [lit "embedText"; lit "countTextTokens"])].

Definition bison_then_gemini : list Resolver.Model :=
  [Resolver.mkModel (AttrVal (lit "models/chat-bison-001"))
                    (AttrVal [lit "generateContent"]);
   Resolver.mkModel (AttrVal (lit "models/gemini-1.5-flash"))
                    (AttrVal [lit "generateContent"; lit "countTokens"])].

(** C5, as stated, fails: a listing without eligible model yields the name
    of the first model listed, which is not the hard-coded identifier; a
    model that supports ["generateContent"] but is not named gemini is
    passed over; and an interrupt raised by the listing call leaves the
    module. *)
Lemma resolver_uses_first_listed_model :
  Resolver.AVAILABLE_MODEL ascii_lower (Ok embedding_only)
  = Ok (Some (lit "models/embedding-gecko-001")) /\
  lit "models/embedding-gecko-001" <> Resolver.fallback_model /\
  Resolver.AVAILABLE_MODEL ascii_lower (Ok bison_then_gemini)
  = Ok (Some (lit "models/gemini-1.5-flash")) /\
  Resolver.AVAILABLE_MODEL ascii_lower (Raise KeyboardInterrupt)
  = Raise KeyboardInterrupt.
Proof. repeat split; try reflexivity. discriminate. Qed.

(** Listings with a model that has no name. *)
Definition nameless : Resolver.Model := Resolver.mkModel AttrMissing AttrMissing.

Definition nameless_then_bison : list Resolver.Model :=
  [nameless;
   Resolver.mkModel (AttrVal (lit "models/text-bison-001"))
                    (AttrVal [lit "generateText"])].

Definition nameless_then_gemini : list Resolver.Model :=
  [nameless;
   Resolver.mkModel (AttrVal (lit "models/gemini-x")) (AttrVal [lit "generateContent"])].

Lemma resolver_fallbacks_witness :
  Forall (ResolverFacts.well_formed) bison_then_gemini /\
  Resolver.AVAILABLE_MODEL ascii_lower (Ok bison_then_gemini)
  = Ok (Some (lit "models/gemini-1.5-flash")) /\
  Resolver.AVAILABLE_MODEL ascii_lower (Raise server_error)
  = Ok (Some (lit "gemini-pro")) /\
  Resolver.AVAILABLE_MODEL ascii_lower (Ok nameless_then_bison)
  = Ok (Some (lit "gemini-pro")) /\
  Resolver.AVAILABLE_MODEL ascii_lower (Ok nameless_then_gemini)
  = Ok (Some (lit "models/gemini-x")).
Proof.
  assert (Hwf : Forall (ResolverFacts.well_formed) bison_then_gemini).
  { repeat constructor; try (eexists; reflexivity); discriminate. }
  split; [exact Hwf|].
  destruct (ResolverFacts.resolver_fallbacks ascii_lower)
    as (_ & Hraise & _ & _ & _ & Hfirst & Hselected & _).
  split; [exact (Hfirst _ _ Hwf)|].
  split; [exact (Hraise server_error eq_refl)|].
  split; [exact (Hselected nameless_then_bison) | exact (Hselected nameless_then_gemini)].
Defined.

Lemma init_checks_existence_then_suffix_witness :
  env_exists one_leg_fails (of_str (lit "data/ages.JSON")) = true /\
  fst (init one_leg_fails (lit "data/ages.JSON") init_world)
  = Raise (Exception_ ValueError (lit "File must have .json extension")).
Proof.
  split; [reflexivity|].
  destruct (@init_checks_existence_then_suffix one_leg_fails (lit "data/ages.JSON")
              init_world)
    as (_ & _ & Hfound & Hupper & _).
  apply (Hfound eq_refl). exact (Hupper (lit "data/ages")).
Defined.

Lemma blank_question_exits_before_conversion_witness :
  env_stdin one_leg_fails = Ok (lit "   ") /\
  all_whitespace (lit "   ") /\
  terminate (fst (main ascii_lower one_leg_fails sample_model
                    [lit "script.py"; lit "data/ages.json"] init_world))
  = Exited 1.
Proof.
  assert (Hblank : all_whitespace (lit "   ")) by (repeat constructor).
  split; [reflexivity|]. split; [exact Hblank|].
  exact (proj1 (proj2 (@blank_question_exits_before_conversion ascii_lower
                         one_leg_fails sample_model (lit "script.py")
                         (lit "data/ages.json") (lit "   ") init_world
                         eq_refl Hblank))).
Defined.


Lemma converter_invoked_at_most_once_witness :
  exists evs,
    trace (snd (main ascii_lower one_leg_fails sample_model sample_argv init_world))
    = evs /\
    converter_runs evs = 1 /\
    In (EvSubprocess [lit "npx"; lit "@toon-format/cli"; lit "data/ages.json";
                      lit "-o"; lit "data/ages_output.toon"]) evs.
Proof.
  destruct (@converter_invoked_at_most_once ascii_lower one_leg_fails sample_model
              sample_argv init_world)
    as (evs & Htrace & _ & _ & Hstarted).
  exists evs. split; [exact Htrace|].
  exact (Hstarted (lit "script.py") (lit "data/ages.json") [lit "How"; lit "many?"]
                  (lit "How many?") init_world eq_refl eq_refl eq_refl eq_refl).
Defined.

Example sample_run_converter_call :
  In (EvSubprocess [lit "npx"; lit "@toon-format/cli"; lit "data/ages.json";
                    lit "-o"; lit "data/ages_output.toon"])
     (trace (snd (main ascii_lower one_leg_fails sample_model sample_argv init_world))).
Proof. vm_compute. right. left. reflexivity. Qed.

End Runs.

(* ================================================================= *)
(** ** Further properties: how a run of main ends *)

(** The world with some more events in its trace. *)
Definition log (w : World) (evs : list event) : World :=
  mkWorld (now_ns w) (trace w ++ evs) (api_calls w) (clock_reads w).

Section Outcomes.

Variable str_lower : str -> str.
Variable E : Env.
Variable AVAILABLE_MODEL : str.

(** The constructor on a good path. *)
Definition fresh_test (json_file : str) : TOONParsingTest :=
  mkTest (of_str json_file) None None None.

Lemma init_cases json_file w :
  init E json_file w
  = (if negb (env_exists E (of_str json_file)) then
       Raise (Exception_ FileNotFoundError (lit "JSON file not found: " ++ json_file))
     else if negb (str_eqb (suffix (of_str json_file)) (lit ".json")) then
       Raise (Exception_ ValueError (lit "File must have .json extension"))
     else Ok (fresh_test json_file),
     log w [EvExists (of_str json_file)]).
Proof.
  unfold init, bind, exists_, emit, ret, raise, log, fresh_test. simpl.
  destruct (negb (env_exists E (of_str json_file))); [reflexivity|].
  destruct (negb _); reflexivity.
Qed.

(** The object after a successful conversion. *)
Definition converted (self : TOONParsingTest) : TOONParsingTest :=
  mkTest (json_file_path self) (Some (toon_path_of (json_file_path self)))
         (json_content self) (toon_content self).

Definition converter_call (self : TOONParsingTest) : list str :=
  converter_argv (json_file_path self) (toon_path_of (json_file_path self)).

Lemma convert_to_toon_cases self w :
  convert_to_toon E self w
  = (match env_subprocess E (converter_call self) with
     | Ok _ => Ok (converted self)
     | Raise e =>
         if is_class CalledProcessError e || is_class FileNotFoundError e
         then Raise (SystemExit 1) else Raise e
     end,
     log w [EvSubprocess (converter_call self)]).
Proof.
  unfold convert_to_toon, try_except, bind, subprocess_run, emit, lift, ret,
    sys_exit, raise, log, converter_call, converted, toon_path_of. simpl.
  destruct (env_subprocess E _) as [[]|e]; simpl; [reflexivity|].
  destruct (_ || _); reflexivity.
Qed.

(** [main] once the question is known: the [try] statement and its two
    handlers. *)
Lemma main_with_question prog json_file tokens question w wq :
  get_question E tokens w = (Ok question, wq) ->
  main str_lower E AVAILABLE_MODEL (prog :: json_file :: tokens) w
  = match main_try str_lower E AVAILABLE_MODEL json_file question wq with
    | (Ok u, w') => (Ok u, w')
    | (Raise e, w') =>
        if is_KeyboardInterrupt e then (Raise (SystemExit 0), w')
        else if is_Exception e then (Raise (SystemExit 1), w')
        else (Raise e, w')
    end.
Proof.
  intros Hq. unfold main. rewrite (bind_ok _ Hq). unfold try_except.
  destruct (main_try _ _ _ _ _ wq) as [[u|e] w']; [reflexivity|].
  destruct e; reflexivity.
Qed.

(** A file that is missing, or whose suffix is not [".json"], ends the
    process with status 1 right after the lookup of the path: the
    converter is not started. *)
Theorem main_rejects_invalid_file (prog json_file : str) (tokens : list str)
  (question : str) (w wq : World) :
  get_question E tokens w = (Ok question, wq) ->
  env_exists E (of_str json_file) = false \/ suffix (of_str json_file) <> lit ".json" ->
  let run := main str_lower E AVAILABLE_MODEL (prog :: json_file :: tokens) w in
  terminate (fst run) = Exited 1 /\
  trace (snd run) = trace wq ++ [EvExists (of_str json_file)].
Proof.
  intros Hq Hbad run. subst run. rewrite (@main_with_question prog json_file _ _ _ _ Hq).
  assert (Hinit : exists e,
            init E json_file wq = (Raise e, log wq [EvExists (of_str json_file)]) /\
            is_Exception e = true).
  { rewrite init_cases.
    destruct (negb (env_exists E (of_str json_file))) eqn:Hex; [eauto|].
    destruct Hbad as [Hmiss|Hsuf].
    - rewrite Hmiss in Hex. discriminate.
    - apply str_eqb_neq in Hsuf. rewrite Hsuf. simpl. eauto. }
  destruct Hinit as (e & Hinit & He).
  unfold main_try. rewrite (bind_raise _ Hinit).
  destruct e; try discriminate. now split.
Qed.

(** When the converter fails with any instance of [Exception] (a non-zero
    exit status, a missing [npx], or anything else), the process ends with
    status 1 right after the converter: no file is read, no request is
    sent, nothing is written. *)
Theorem converter_failure_is_fatal (prog json_file : str) (tokens : list str)
  (question : str) (w wq : World) (e : exn) :
  get_question E tokens w = (Ok question, wq) ->
  env_exists E (of_str json_file) = true ->
  suffix (of_str json_file) = lit ".json" ->
  env_subprocess E (converter_call (fresh_test json_file)) = Raise e ->
  is_Exception e = true ->
  let run := main str_lower E AVAILABLE_MODEL (prog :: json_file :: tokens) w in
  terminate (fst run) = Exited 1 /\
  trace (snd run)
  = trace wq ++ [EvExists (of_str json_file);
                 EvSubprocess (converter_call (fresh_test json_file))].
Proof.
  intros Hq Hex Hsuf Hrun He run. subst run.
  rewrite (@main_with_question prog json_file _ _ _ _ Hq).
  assert (Hinit : init E json_file wq
                  = (Ok (fresh_test json_file), log wq [EvExists (of_str json_file)])).
  { rewrite init_cases, Hex, Hsuf. reflexivity. }
  unfold main_try. rewrite (bind_ok _ Hinit).
  assert (Hconv : exists e',
            convert_to_toon E (fresh_test json_file)
              (log wq [EvExists (of_str json_file)])
            = (Raise e', log (log wq [EvExists (of_str json_file)])
                             [EvSubprocess (converter_call (fresh_test json_file))]) /\
            (e' = SystemExit 1 \/ is_Exception e' = true)).
  { rewrite convert_to_toon_cases, Hrun.
    destruct (is_class CalledProcessError e || is_class FileNotFoundError e); eauto. }
  destruct Hconv as (e' & Hconv & He').
  rewrite (bind_raise _ Hconv).
  destruct He' as [->|He']; [|destruct e'; try discriminate];
    simpl; rewrite <- app_assoc; now split.
Qed.

(** An exception raised by the prompt (an interrupt, or the end of the
    input) is not handled: it leaves [main] as it is, and nothing has
    happened but the prompt. *)
Theorem prompt_failure_is_not_handled (prog json_file : str) (w : World) (e : exn) :
  env_stdin E = Raise e ->
  let run := main str_lower E AVAILABLE_MODEL [prog; json_file] w in
  fst run = Raise e /\
  trace (snd run) = trace w ++ [EvInput] /\
  (e = KeyboardInterrupt -> terminate (fst run) = Traceback KeyboardInterrupt).
Proof.
  intros Hin run. subst run.
  unfold main, get_question, input, bind, emit, lift. simpl. rewrite Hin. simpl.
  repeat split. intros ->. reflexivity.
Qed.

(** A question given on the command line is the tokens joined by single
    spaces, taken as it is, even when it is empty; no prompt is shown. A
    question read from the prompt is stripped and never empty. *)
Theorem get_question_sources (tokens : list str) (w : World) :
  (tokens <> [] ->
     get_question E tokens w = (Ok (join (lit " ") tokens), w)) /\
  (forall question w',
     get_question E [] w = (Ok question, w') ->
     question <> [] /\ no_leading_ws question /\ no_trailing_ws question /\
     exists line, env_stdin E = Ok line /\ question = strip line /\
                  trace w' = trace w ++ [EvInput]).
Proof.
  split.
  - destruct tokens as [|t tokens]; [contradiction | reflexivity].
  - intros question w'. unfold get_question, input, bind, emit, lift. simpl.
    destruct (env_stdin E) as [line|e] eqn:Hin; simpl; [|discriminate].
    destruct (strip line) as [|c rest] eqn:Hstrip; [discriminate|].
    intros H. inversion H; subst.
    destruct (strip_spec line) as (l & r & _ & _ & _ & Hlead & Htrail).
    rewrite Hstrip in Hlead, Htrail.
    split; [discriminate|]. split; [exact Hlead|]. split; [exact Htrail|].
    exists line. now repeat split.
Qed.

End Outcomes.

(* ================================================================= *)
(** ** Further properties: reading, asking, reporting, saving *)

Section Pipeline.

Variable str_lower : str -> str.
Variable E : Env.
Variable AVAILABLE_MODEL : str.

(** The object once both files are read. *)
Definition loaded (self : TOONParsingTest) (json toon : str) : TOONParsingTest :=
  mkTest (json_file_path self) (toon_file_path self) (Some json) (Some toon).

Lemma load_contents_cases self w :
  load_contents E self w
  = match env_read E (json_file_path self) with
    | Raise e => (Raise e, log w [EvRead (json_file_path self)])
    | Ok json =>
        match toon_file_path self with
        | None =>
            (Raise (Exception_ TypeError
                      (lit "expected str, bytes or os.PathLike object, not NoneType")),
             log w [EvRead (json_file_path self)])
        | Some toon_path =>
            match env_read E toon_path with
            | Raise e =>
                (Raise e, log (log w [EvRead (json_file_path self)]) [EvRead toon_path])
            | Ok toon =>
                (Ok (loaded self json toon),
                 log (log w [EvRead (json_file_path self)]) [EvRead toon_path])
            end
        end
    end.
Proof.
  unfold load_contents, bind, read_file, emit, lift, ret, raise, log, loaded. simpl.
  destruct (env_read E (json_file_path self)) as [json|e]; simpl; [|reflexivity].
  destruct (toon_file_path self) as [toon_path|]; simpl; [|reflexivity].
  destruct (env_read E toon_path) as [toon|e]; reflexivity.
Qed.

(** Where [save_results] writes. *)
Definition results_path (self : TOONParsingTest) : Path :=
  truediv (parent (json_file_path self)) (lit "test_results.json").

(** When one of the two files cannot be read, the process ends with status
    1 after the failed read: no request is sent and nothing is written.
    The JSON file is read first, and the TOON file only after it. *)
Theorem read_failure_is_fatal (prog json_file : str) (tokens : list str)
  (question : str) (w wq : World) (e : exn) :
  let p := of_str json_file in
  get_question E tokens w = (Ok question, wq) ->
  env_exists E p = true ->
  suffix p = lit ".json" ->
  env_subprocess E (converter_call (fresh_test json_file)) = Ok tt ->
  env_read E p = Raise e
  \/ (exists json, env_read E p = Ok json /\ env_read E (toon_path_of p) = Raise e) ->
  is_Exception e = true ->
  let run := main str_lower E AVAILABLE_MODEL (prog :: json_file :: tokens) w in
  terminate (fst run) = Exited 1 /\
  exists reads,
    trace (snd run)
    = trace wq ++ [EvExists p; EvSubprocess (converter_call (fresh_test json_file))]
               ++ reads /\
    (reads = [EvRead p] \/ reads = [EvRead p; EvRead (toon_path_of p)]).
Proof.
  intros p Hq Hex Hsuf Hconv Hread He run. subst run.
  rewrite (@main_with_question str_lower E AVAILABLE_MODEL prog json_file _ _ _ _ Hq).
  assert (Hinit : init E json_file wq
                  = (Ok (fresh_test json_file), log wq [EvExists p])).
  { rewrite init_cases. fold p. rewrite Hex, Hsuf. reflexivity. }
  unfold main_try. rewrite (bind_ok _ Hinit).
  assert (Hc : convert_to_toon E (fresh_test json_file) (log wq [EvExists p])
               = (Ok (converted (fresh_test json_file)),
                  log (log wq [EvExists p])
                      [EvSubprocess (converter_call (fresh_test json_file))])).
  { rewrite convert_to_toon_cases, Hconv. reflexivity. }
  rewrite (bind_ok _ Hc).
  match goal with
  | |- context [bind (load_contents E ?t) ?k ?w0] =>
      assert (Hload : exists reads,
                load_contents E t w0 = (Raise e, log w0 reads) /\
                (reads = [EvRead p] \/ reads = [EvRead p; EvRead (toon_path_of p)]))
  end.
  { rewrite load_contents_cases. simpl json_file_path. simpl toon_file_path. fold p.
    destruct Hread as [Hj|(json & Hj & Ht)].
    - rewrite Hj. eauto.
    - rewrite Hj, Ht. exists [EvRead p; EvRead (toon_path_of p)]. split; [|auto].
      unfold log. simpl. now rewrite <- app_assoc. }
  destruct Hload as (reads & Hload & Hreads).
  rewrite (bind_raise _ Hload).
  destruct e; try discriminate. simpl. split; [reflexivity|].
  exists reads. split; [|exact Hreads]. now rewrite <- !app_assoc.
Qed.

(** [run_test] when the service raises nothing but instances of
    [Exception] and the pause is not interrupted. *)
Lemma run_test_returns self q w over :
  (forall n c e, env_generate E n AVAILABLE_MODEL c = Raise e -> is_Exception e = true) ->
  env_sleep E = Slept over ->
  exists jr jt tr tt w' t_pause t2,
    run_test E AVAILABLE_MODEL self q w = (Ok (comparison_record q jr jt tr tt), w') /\
    trace w' = trace w ++ [EvGenerate (now_ns w) AVAILABLE_MODEL
                                      (prompt (json_content self) (lit "JSON") q);
                           EvSleep t_pause 2;
                           EvGenerate t2 AVAILABLE_MODEL
                                      (prompt (toon_content self) (lit "TOON") q)].
Proof.
  intros Hgen Hsleep.
  destruct (@query_llm_returns E AVAILABLE_MODEL (json_content self) (lit "JSON") q w
              (Hgen _ _))
    as (jr & jt & r1 & Hq1 & _).
  set (w1 := after_query E AVAILABLE_MODEL w _ r1) in Hq1.
  pose proof (@time_sleep_slept E 2 w1 over Hsleep) as Hs.
  set (w2 := mkWorld _ _ _ _) in Hs.
  destruct (@query_llm_returns E AVAILABLE_MODEL (toon_content self) (lit "TOON") q w2
              (Hgen _ _))
    as (tr & tt & r2 & Hq2 & _).
  do 7 eexists. split.
  - unfold run_test. rewrite (bind_ok _ Hq1), (bind_ok _ Hs), (bind_ok _ Hq2).
    reflexivity.
  - simpl. rewrite <- !app_assoc. reflexivity.
Qed.

(** With a readable [.json] file, a working converter and a writable
    directory, a run always ends with status 0 and a complete result file,
    also when the service fails on either request: the file is looked up,
    converted, both encodings are read, each is sent with the question (the
    JSON one first, then the pause, then the TOON one), the verdicts are
    printed for the very record that is then written beside the input. *)
Theorem run_with_working_tools (prog json_file : str) (tokens : list str)
  (question : str) (w wq : World) (json toon : str) (over : N) :
  let p := of_str json_file in
  let self := converted (fresh_test json_file) in
  get_question E tokens w = (Ok question, wq) ->
  env_exists E p = true ->
  suffix p = lit ".json" ->
  env_subprocess E (converter_call (fresh_test json_file)) = Ok tt ->
  env_read E p = Ok json ->
  env_read E (toon_path_of p) = Ok toon ->
  (forall n c e, env_generate E n AVAILABLE_MODEL c = Raise e -> is_Exception e = true) ->
  env_sleep E = Slept over ->
  env_write E (results_path self) = Written ->
  let run := main str_lower E AVAILABLE_MODEL (prog :: json_file :: tokens) w in
  terminate (fst run) = Exited 0 /\
  exists t1 t_pause t2 jr jt tr tt,
    trace (snd run)
    = trace wq ++
      [EvExists p;
       EvSubprocess (converter_call (fresh_test json_file));
       EvRead p;
       EvRead (toon_path_of p);
       EvGenerate t1 AVAILABLE_MODEL (prompt (Some json) (lit "JSON") question);
       EvSleep t_pause 2;
       EvGenerate t2 AVAILABLE_MODEL (prompt (Some toon) (lit "TOON") question);
       EvReport (compare_responses str_lower jr tr) (compare_times jt tt);
       EvWrite (results_path self) (comparison_record question jr jt tr tt) true].
Proof.
  intros p self Hq Hex Hsuf Hconv Hj Ht Hgen Hsleep Hwrite run. subst run.
  rewrite (@main_with_question str_lower E AVAILABLE_MODEL prog json_file _ _ _ _ Hq).
  assert (Hinit : init E json_file wq
                  = (Ok (fresh_test json_file), log wq [EvExists p])).
  { rewrite init_cases. fold p. rewrite Hex, Hsuf. reflexivity. }
  unfold main_try. rewrite (bind_ok _ Hinit).
  set (w0 := log wq [EvExists p]).
  assert (Hc : convert_to_toon E (fresh_test json_file) w0
               = (Ok self, log w0 [EvSubprocess (converter_call (fresh_test json_file))])).
  { rewrite convert_to_toon_cases, Hconv. reflexivity. }
  rewrite (bind_ok _ Hc).
  set (w1 := log w0 _).
  assert (Hload : load_contents E self w1
                  = (Ok (loaded self json toon),
                     log (log w1 [EvRead p]) [EvRead (toon_path_of p)])).
  { rewrite load_contents_cases. subst self. simpl json_file_path.
    simpl toon_file_path. fold p. rewrite Hj, Ht. reflexivity. }
  rewrite (bind_ok _ Hload).
  set (w2 := log (log w1 _) _).
  destruct (run_test_returns (loaded self json toon) question w2 Hgen Hsleep)
    as (jr & jt & tr & tt & w3 & t_pause & t2 & Hrun & Htrace).
  rewrite (bind_ok _ Hrun).
  pose proof (@display_results_record str_lower question jr jt tr tt w3) as Hshow.
  rewrite (bind_ok _ Hshow).
  assert (Hsave : save_results E (loaded self json toon)
                    (comparison_record question jr jt tr tt)
                  = emit (EvWrite (results_path self)
                                  (comparison_record question jr jt tr tt) true)).
  { unfold save_results, write_json.
    change (truediv (parent (json_file_path (loaded self json toon)))
                    (lit "test_results.json"))
      with (results_path self).
    now rewrite Hwrite. }
  rewrite Hsave. unfold emit. simpl. split; [reflexivity|].
  exists (now_ns w2), t_pause, t2, jr, jt, tr, tt.
  rewrite Htrace. subst w2 w1 w0. simpl. rewrite <- !app_assoc. reflexivity.
Qed.

(** When both requests fail with the same error text, the report calls the
    two responses IDENTICAL and the two latencies SIMILAR. *)
Theorem failed_legs_look_alike (self : TOONParsingTest) (q : str) (w : World)
  (over : N) (e1 e2 : exn) :
  let pj := prompt (json_content self) (lit "JSON") q in
  let pt := prompt (toon_content self) (lit "TOON") q in
  env_generate E (api_calls w) AVAILABLE_MODEL pj = Raise e1 ->
  env_generate E (S (api_calls w)) AVAILABLE_MODEL pt = Raise e2 ->
  is_Exception e1 = true -> is_Exception e2 = true ->
  str_of_exn e1 = str_of_exn e2 ->
  env_sleep E = Slept over ->
  exists results w',
    run_test E AVAILABLE_MODEL self q w = (Ok results, w') /\
    forall w2,
      trace (snd (display_results str_lower results w2))
      = trace w2 ++ [EvReport IDENTICAL SIMILAR].
Proof.
  intros pj pt H1 H2 He1 He2 Hmsg Hsleep.
  assert (Hq1 : query_llm E AVAILABLE_MODEL (json_content self) (lit "JSON") q w
                = (Ok (error_text e1, 0%float), after_query E AVAILABLE_MODEL w pj 1)).
  { rewrite query_llm_cases. fold pj. now rewrite H1, He1. }
  set (w1 := after_query E AVAILABLE_MODEL w pj 1) in *.
  pose proof (@time_sleep_slept E 2 w1 over Hsleep) as Hs.
  set (w2 := mkWorld _ _ _ _) in Hs.
  assert (Hq2 : query_llm E AVAILABLE_MODEL (toon_content self) (lit "TOON") q w2
                = (Ok (error_text e2, 0%float), after_query E AVAILABLE_MODEL w2 pt 1)).
  { rewrite query_llm_cases. fold pt.
    change (api_calls w2) with (S (api_calls w)). now rewrite H2, He2. }
  exists (comparison_record q (error_text e1) 0%float (error_text e2) 0%float).
  eexists. split.
  - unfold run_test. rewrite (bind_ok _ Hq1), (bind_ok _ Hs), (bind_ok _ Hq2).
    reflexivity.
  - intros w3. rewrite display_results_record. simpl.
    unfold compare_responses, error_text. rewrite Hmsg, str_eqb_refl. reflexivity.
Qed.

(** A query makes exactly one request, whatever the answer: there is no
    retry. What it returns is either the stripped text of the response
    with the difference of the two wall-clock readings taken around the
    request, or a text that starts with ["Error: "] with the time [0.0]. *)
Theorem query_llm_calls_once (data : option str) (fmt q : str) (w : World) :
  let run := query_llm E AVAILABLE_MODEL data fmt q w in
  api_calls (snd run) = S (api_calls w) /\
  trace (snd run)
  = trace w ++ [EvGenerate (now_ns w) AVAILABLE_MODEL (prompt data fmt q)] /\
  now_ns (snd run) = (now_ns w + env_latency_ns E (api_calls w))%N /\
  forall text elapsed,
    fst run = Ok (text, elapsed) ->
    (exists raw,
       env_generate E (api_calls w) AVAILABLE_MODEL (prompt data fmt q)
       = Ok (AttrVal raw) /\
       text = strip raw /\
       elapsed = (env_time E (S (clock_reads w)) - env_time E (clock_reads w))%float)
    \/ (startswith (lit "Error: ") text = true /\ elapsed = 0%float).
Proof.
  intros run. subst run. rewrite query_llm_cases.
  destruct (env_generate E (api_calls w) AVAILABLE_MODEL (prompt data fmt q))
    as [[| |raw]|e]; simpl.
  - repeat split. intros text elapsed H. inversion H. now right.
  - repeat split. intros text elapsed H. inversion H. now right.
  - repeat split. intros text elapsed H. inversion H. left. now exists raw.
  - destruct (is_Exception e); simpl; repeat split; intros text elapsed H;
      inversion H. now right.
Qed.

End Pipeline.

(* ================================================================= *)
(** ** Further properties: the order of the stages *)

Inductive kind :=
| KInput | KExists | KSubprocess | KRead | KGenerate | KSleep | KReport | KWrite.

Definition kind_of (ev : event) : kind :=
  match ev with
  | EvInput => KInput
  | EvExists _ => KExists
  | EvSubprocess _ => KSubprocess
  | EvRead _ => KRead
  | EvGenerate _ _ _ => KGenerate
  | EvSleep _ _ => KSleep
  | EvReport _ _ => KReport
  | EvWrite _ _ _ => KWrite
  end.

(** The stages of a run, in the order of the [try] statement of [main]. *)
Definition pipeline : list kind :=
  [KExists; KSubprocess; KRead; KRead; KGenerate; KSleep; KGenerate; KReport; KWrite].

(** Every run of [c] performs an initial part of the stages [ks], and all
    of them when it returns. *)
Definition stage (ks : list kind) {A} (c : M A) : Prop :=
  forall w, exists evs,
    appended c w evs /\
    (exists rest, map kind_of evs ++ rest = ks) /\
    (forall a, fst (c w) = Ok a -> map kind_of evs = ks).

Lemma stage_bind k1 k2 {A B} (c : M A) (k : A -> M B) :
  stage k1 c -> (forall a, stage k2 (k a)) -> stage (k1 ++ k2) (bind c k).
Proof.
  intros Hc Hk w. destruct (Hc w) as (e1 & H1 & (r1 & P1) & F1).
  unfold appended, bind in *. destruct (c w) as [[a|e] w1]; simpl in *.
  - destruct (Hk a w1) as (e2 & H2 & (r2 & P2) & F2). unfold appended in H2.
    specialize (F1 a eq_refl). exists (e1 ++ e2). split; [|split].
    + now rewrite H2, H1, app_assoc.
    + exists r2. now rewrite map_app, <- app_assoc, P2, F1.
    + intros b Hb. rewrite map_app, F1. f_equal. now apply (F2 b).
  - exists e1. split; [exact H1|]. split; [|discriminate].
    exists (r1 ++ k2). now rewrite app_assoc, P1.
Qed.

(** A statement that always performs exactly the events [evs]. *)
Lemma stage_exact {A} (c : M A) (f : World -> list event) ks :
  (forall w, appended c w (f w) /\ map kind_of (f w) = ks) -> stage ks c.
Proof.
  intros H w. destruct (H w) as [Ha Hk]. exists (f w). split; [exact Ha|].
  split; [exists []; now rewrite app_nil_r | now intros].
Qed.

Section Stages.

Variable str_lower : str -> str.
Variable E : Env.
Variable AVAILABLE_MODEL : str.

Lemma stage_init json_file : stage [KExists] (init E json_file).
Proof.
  apply stage_exact with (f := fun _ => [EvExists (of_str json_file)]).
  intros w. split; [|reflexivity]. unfold appended. now rewrite init_cases.
Qed.

Lemma stage_convert_to_toon self : stage [KSubprocess] (convert_to_toon E self).
Proof.
  apply stage_exact with (f := fun _ => [EvSubprocess (converter_call self)]).
  intros w. split; [|reflexivity]. unfold appended. now rewrite convert_to_toon_cases.
Qed.

Lemma stage_load_contents self : stage [KRead; KRead] (load_contents E self).
Proof.
  intros w. unfold appended. rewrite load_contents_cases.
  destruct (env_read E (json_file_path self)) as [json|e].
  - destruct (toon_file_path self) as [toon_path|].
    + exists [EvRead (json_file_path self); EvRead toon_path]. split; [|split].
      * destruct (env_read E toon_path); simpl; now rewrite <- app_assoc.
      * now exists [].
      * reflexivity.
    + exists [EvRead (json_file_path self)]. split; [reflexivity|].
      split; [now exists [KRead] | discriminate].
  - exists [EvRead (json_file_path self)]. split; [reflexivity|].
    split; [now exists [KRead] | discriminate].
Qed.

Lemma stage_query_llm data fmt q :
  stage [KGenerate] (query_llm E AVAILABLE_MODEL data fmt q).
Proof.
  apply stage_exact
    with (f := fun w => [EvGenerate (now_ns w) AVAILABLE_MODEL (prompt data fmt q)]).
  intros w. split; [|reflexivity]. unfold appended.
  destruct (query_llm_world E AVAILABLE_MODEL data fmt q w) as (reads & ->).
  reflexivity.
Qed.

Lemma stage_time_sleep secs : stage [KSleep] (time_sleep E secs).
Proof.
  apply stage_exact with (f := fun w => [EvSleep (now_ns w) secs]).
  intros w. split; [|reflexivity]. unfold appended, time_sleep.
  destruct (env_sleep E); reflexivity.
Qed.

Lemma stage_ret {A} (a : A) : stage [] (ret a).
Proof.
  apply stage_exact with (f := fun _ => []).
  intros w. split; [|reflexivity]. unfold appended. simpl. now rewrite app_nil_r.
Qed.

Lemma stage_run_test self q :
  stage [KGenerate; KSleep; KGenerate] (run_test E AVAILABLE_MODEL self q).
Proof.
  unfold run_test.
  change [KGenerate; KSleep; KGenerate]
    with ([KGenerate] ++ [KSleep] ++ [KGenerate] ++ []).
  apply stage_bind; [apply stage_query_llm|]. intros jr.
  apply stage_bind; [apply stage_time_sleep|]. intros _.
  apply stage_bind; [apply stage_query_llm|]. intros tr.
  apply stage_ret.
Qed.

(** A report that fails has printed no verdict and changed nothing. *)
Lemma display_results_raise results w e w' :
  display_results str_lower results w = (Raise e, w') ->
  w' = w /\ is_Exception e = true.
Proof.
  unfold display_results, getitem, as_float, as_str, bind, emit, ret, raise.
  destruct (get results (lit "question")) as [v0|];
    [|intros H; inversion H; now split].
  destruct (get results (lit "json_time")) as [[s|jt]|];
    try (intros H; inversion H; now split).
  destruct (get results (lit "json_response")) as [[jr|f]|];
    try (intros H; inversion H; now split).
  destruct (get results (lit "toon_time")) as [[s|tt]|];
    try (intros H; inversion H; now split).
  destruct (get results (lit "toon_response")) as [[tr|f]|];
    try (intros H; inversion H; now split).
Qed.

Lemma stage_display_results results :
  stage [KReport] (display_results str_lower results).
Proof.
  intros w. unfold appended.
  destruct (display_results str_lower results w) as [[u|e] w'] eqn:Hd.
  - destruct (display_results_ok _ _ _ Hd) as (rv & lv & Ht).
    exists [EvReport rv lv]. split; [exact Ht|]. split; [now exists [] | reflexivity].
  - apply display_results_raise in Hd as [-> _].
    exists []. split; [simpl; now rewrite app_nil_r|].
    split; [now exists [KReport] | discriminate].
Qed.

Lemma stage_save_results self results : stage [KWrite] (save_results E self results).
Proof.
  intros w. unfold appended, save_results, write_json.
  destruct (env_write E _) as [|e|e].
  - eexists [EvWrite _ results true]. split; [reflexivity|].
    split; [now exists [] | reflexivity].
  - exists []. split; [simpl; now rewrite app_nil_r|].
    split; [now exists [KWrite] | discriminate].
  - eexists [EvWrite _ results false]. split; [reflexivity|].
    split; [now exists [] | reflexivity].
Qed.

(** Whatever the environment answers, the events of the [try] statement
    of [main] are an initial part of the fixed sequence of stages (lookup,
    converter, two reads, request, pause, request, report, write), each
    stage at most once and none out of order; a run that comes to its end
    has performed all of them. *)
Theorem main_try_follows_pipeline (json_file question : str) (w : World) :
  exists evs,
    trace (snd (main_try str_lower E AVAILABLE_MODEL json_file question w))
    = trace w ++ evs /\
    (exists rest, map kind_of evs ++ rest = pipeline) /\
    (forall u, fst (main_try str_lower E AVAILABLE_MODEL json_file question w) = Ok u ->
               map kind_of evs = pipeline).
Proof.
  assert (H : stage pipeline (main_try str_lower E AVAILABLE_MODEL json_file question)).
  { unfold main_try.
    change pipeline
      with ([KExists] ++ [KSubprocess] ++ [KRead; KRead]
            ++ [KGenerate; KSleep; KGenerate] ++ [KReport] ++ [KWrite]).
    apply stage_bind; [apply stage_init|]. intros t0.
    apply stage_bind; [apply stage_convert_to_toon|]. intros t1.
    apply stage_bind; [apply stage_load_contents|]. intros t2.
    apply stage_bind; [apply stage_run_test|]. intros results.
    apply stage_bind; [apply stage_display_results|]. intros _.
    apply stage_save_results. }
  exact (H w).
Qed.

(** A record that lacks one of the five keys makes [display_results]
    raise an [Exception] before any verdict is printed (KeyError for the
    question, which is looked up first); a record with the question, two
    float times and two string responses gets both verdicts, computed from
    these values. *)
Theorem display_results_needs_every_key (results : dict) (w : World) :
  let run := display_results str_lower results w in
  (forall k,
     In k [lit "question"; lit "json_time"; lit "json_response";
           lit "toon_time"; lit "toon_response"] ->
     get results k = None ->
     exists e, fst run = Raise e /\ is_Exception e = true /\
               trace (snd run) = trace w) /\
  (get results (lit "question") = None ->
   fst run = Raise (Exception_ KeyError (lit "'question'"))) /\
  (forall v json_time json_response toon_time toon_response,
     get results (lit "question") = Some v ->
     get results (lit "json_time") = Some (VFloat json_time) ->
     get results (lit "json_response") = Some (VStr json_response) ->
     get results (lit "toon_time") = Some (VFloat toon_time) ->
     get results (lit "toon_response") = Some (VStr toon_response) ->
     fst run = Ok tt /\
     trace (snd run)
     = trace w ++ [EvReport (compare_responses str_lower json_response toon_response)
                            (compare_times json_time toon_time)]).
Proof.
  intros run. subst run. split; [|split].
  - intros k Hk Hnone.
    destruct (display_results str_lower results w) as [[u|e] w'] eqn:Hd.
    + exfalso. revert Hd.
      unfold display_results, getitem, as_float, as_str, bind, emit, ret, raise.
      simpl in Hk.
      destruct Hk as [<-|[<-|[<-|[<-|[<-|[]]]]]]; rewrite Hnone;
        repeat match goal with
               | |- context [match get results ?key with _ => _ end] =>
                   destruct (get results key) as [[?|?]|]
               end; discriminate.
    + apply display_results_raise in Hd as [-> He]. exists e. now repeat split.
  - intros H0. unfold display_results, getitem, bind, raise. now rewrite H0.
  - intros v jt jr tt tr H0 H1 H2 H3 H4.
    unfold display_results, getitem, as_float, as_str, bind, emit, ret, raise.
    rewrite H0, H1, H2, H3, H4. now split.
Qed.

End Stages.

(* ================================================================= *)
(** ** Further properties: the files beside the input *)

Section Siblings.

Lemma removelast_snoc {A} (l : list A) (x : A) : removelast (l ++ [x]) = l.
Proof.
  induction l as [|a l IH]; simpl; [reflexivity|].
  destruct (l ++ [x]) eqn:Hl; [now destruct l | now rewrite IH].
Qed.

Lemma parent_of_child (p : Path) (x : str) :
  parent (mkPath (root p) (removelast (tail p) ++ [x])) = parent p.
Proof.
  unfold parent. simpl.
  destruct (removelast (tail p) ++ [x]) eqn:Hl; [now destruct (removelast (tail p))|].
  rewrite <- Hl, removelast_snoc. destruct p as [r [|a t]]; reflexivity.
Qed.

Lemma sibling_is_self (p : Path) (x : str) :
  x <> [] ->
  (mkPath (root p) (removelast (tail p) ++ [x]) = p <-> name p = x).
Proof.
  intros Hx. destruct p as [r t]. unfold name. simpl. split.
  - intros H. inversion H as [Ht]. rewrite <- Ht. apply last_snoc.
  - intros H. f_equal. destruct t as [|a t]; [simpl in H; congruence|].
    rewrite <- H. symmetry. apply app_removelast_last. discriminate.
Qed.

(** [parent / "test_results.json"], component by component. *)
Lemma results_path_parts (self : TOONParsingTest) :
  results_path self
  = mkPath (root (json_file_path self))
           (removelast (tail (json_file_path self)) ++ [lit "test_results.json"]).
Proof.
  unfold results_path, truediv, parent. simpl startswith. cbv iota.
  change (parse_tail (lit "test_results.json")) with [lit "test_results.json"].
  destruct (tail (json_file_path self)) eqn:Ht; cbn [root tail]; rewrite ?Ht;
    reflexivity.
Qed.

(** The result file lies in the directory of the input file, and it is the
    input file itself exactly when the input is named
    ["test_results.json"]: in that case, and only then, saving the results
    overwrites the dataset. *)
Theorem results_file_is_a_sibling (E : Env) (self : TOONParsingTest)
  (results : dict) (w : World) :
  parent (results_path self) = parent (json_file_path self) /\
  name (results_path self) = lit "test_results.json" /\
  (results_path self = json_file_path self
   <-> name (json_file_path self) = lit "test_results.json") /\
  forall p d complete,
    In (EvWrite p d complete) (trace (snd (save_results E self results w))) ->
    In (EvWrite p d complete) (trace w) \/ (p = results_path self /\ d = results).
Proof.
  rewrite results_path_parts. split; [apply parent_of_child|].
  split; [unfold name; simpl; apply last_snoc|].
  split; [apply sibling_is_self; discriminate|].
  rewrite <- results_path_parts.
  intros p d complete. unfold save_results, write_json.
  fold (results_path self).
  destruct (env_write E (results_path self)); simpl.
  - intros Hin. apply in_app_or in Hin as [Hin|[Hin|[]]]; [now left|].
    inversion Hin. now right.
  - now left.
  - intros Hin. apply in_app_or in Hin as [Hin|[Hin|[]]]; [now left|].
    inversion Hin. now right.
Qed.

(** The name of a path with a stem and an extension. *)
Lemma stem_of_name root_ front x rest :
  Forall (fun c => c <> dot) rest -> x <> [] -> rest <> [] ->
  stem (mkPath root_ (front ++ [x ++ dot :: rest])) = x.
Proof.
  intros Hrest Hx Hr. unfold stem, name. simpl tail. rewrite last_snoc.
  assert (Hfind : rfind dot (x ++ dot :: rest) = Some (length x + 0)%nat).
  { apply rfind_app. simpl. now rewrite (rfind_absent Hrest). }
  rewrite Hfind, Nat.add_0_r, length_app. simpl length.
  destruct x as [|a x]; [contradiction|]. destruct rest as [|b rest]; [contradiction|].
  erewrite (proj2 (Nat.ltb_lt (length (a :: x)) _)) by (simpl; lia).
  simpl andb. cbv iota. rewrite firstn_app, firstn_all, Nat.sub_diag. simpl.
  now rewrite app_nil_r.
Qed.

(** The converter never writes over its input: the output lies in the
    directory of the input, carries the suffix [".toon"], and is a path
    different from the input, whatever the input is called. *)
Theorem toon_file_is_a_new_sibling (json_file : str) :
  let p := of_str json_file in
  parent (toon_path_of p) = parent p /\
  name (toon_path_of p) = stem p ++ lit "_output.toon" /\
  suffix (toon_path_of p) = lit ".toon" /\
  stem (toon_path_of p) = stem p ++ lit "_output" /\
  toon_path_of p <> p.
Proof.
  intros p. pose proof (toon_path_of_str json_file) as Hparts. fold p in Hparts.
  cbv zeta in Hparts. rewrite Hparts.
  assert (Hsplit : stem p ++ lit "_output.toon"
                   = (stem p ++ lit "_output") ++ dot :: lit "toon")
    by (now rewrite <- app_assoc).
  assert (Hnodot : Forall (fun c => c <> dot) (lit "toon"))
    by (repeat constructor; discriminate).
  assert (Hne : stem p ++ lit "_output" <> []) by (now destruct (stem p)).
  split; [apply parent_of_child|].
  split; [unfold name; simpl; apply last_snoc|].
  split; [|split].
  - rewrite Hsplit, (suffix_of_name _ _ _ Hnodot).
    now destruct (stem p).
  - rewrite Hsplit. apply stem_of_name; [exact Hnodot | exact Hne | discriminate].
  - intros Heq.
    assert (Hstem : stem p = stem p ++ lit "_output").
    { rewrite <- Heq at 1. rewrite Hsplit.
      apply stem_of_name; [exact Hnodot | exact Hne | discriminate]. }
    apply (f_equal (@length codepoint)) in Hstem. rewrite length_app in Hstem.
    simpl in Hstem. lia.
Qed.

End Siblings.

(* ================================================================= *)
(** ** Further properties: what the resolver can yield *)

Module ResolverChoice.
Import Resolver.

Section WithLower.

Variable str_lower : str -> str.

Lemma candidate_kept (m : Model) (n : str) :
  candidate str_lower m = Ok (Some n) ->
  model_name m = AttrVal n /\ contains (lit "gemini") (str_lower n) = true.
Proof.
  unfold candidate. destruct (model_name m) as [| |n0]; try discriminate.
  destruct (contains (lit "gemini") (str_lower n0)) eqn:Hg; [|discriminate].
  destruct (supported_generation_methods m) as [| |methods]; try discriminate.
  - intros H. inversion H; subst. now split.
  - match goal with |- (if ?b then _ else _) = _ -> _ => destruct b end;
      [|discriminate].
    intros H. inversion H; subst. now split.
Qed.

(** Every name the loop gathers is the name of a listed model whose
    lowercased name contains ["gemini"]. *)
Lemma collect_sound (models : list Model) (acc kept : list str) :
  collect str_lower models acc = Ok kept ->
  forall n, In n kept ->
    In n acc \/
    exists m, In m models /\ model_name m = AttrVal n /\
              contains (lit "gemini") (str_lower n) = true.
Proof.
  revert acc. induction models as [|m models IH]; intros acc; simpl.
  - intros H n Hn. inversion H; subst. now left.
  - destruct (candidate str_lower m) as [[n0|]|e] eqn:Hc; [| |discriminate].
    + intros H n Hn. destruct (IH _ H n Hn) as [Hacc|(m' & Hm' & Hrest)].
      * apply in_app_or in Hacc as [Hacc|[<-|[]]]; [now left|].
        right. exists m. apply candidate_kept in Hc. split; [now left | exact Hc].
      * right. exists m'. split; [now right | exact Hrest].
    + intros H n Hn. destruct (IH _ H n Hn) as [Hacc|(m' & Hm' & Hrest)];
        [now left|].
      right. exists m'. split; [now right | exact Hrest].
Qed.

(** Once the listing has returned, the resolver always binds a string, and
    never one of its own making: it is the hard-coded ["gemini-pro"], or
    the name of a listed model, and then either a name that contains
    ["gemini"] in lower case or the name of the first model listed. *)
Theorem resolver_yields_listed_name (models : list Model) :
  exists n,
    AVAILABLE_MODEL str_lower (Ok models) = Ok (Some n) /\
    (n = fallback_model \/
     exists m, In m models /\ model_name m = AttrVal n /\
               (contains (lit "gemini") (str_lower n) = true \/ hd_error models = Some m)).
Proof.
  unfold AVAILABLE_MODEL, resolve_try.
  destruct (collect str_lower models []) as [[|first rest]|e] eqn:Hc.
  - destruct models as [|m models]; [exists fallback_model; auto|].
    destruct (model_name m) as [| |n] eqn:Hn.
    + exists fallback_model. auto.
    + simpl in Hc. unfold candidate in Hc. rewrite Hn in Hc. discriminate.
    + exists n. split; [reflexivity|]. right. exists m. simpl. auto.
  - exists first. split; [reflexivity|].
    destruct (collect_sound _ _ Hc first (or_introl eq_refl)) as [[]|(m & Hm & Hn & Hg)].
    right. exists m. auto.
  - exists fallback_model.
    rewrite (ResolverFacts.collect_raises_Exception _ _ _ Hc). auto.
Qed.

End WithLower.

End ResolverChoice.

(* ================================================================= *)
(** ** Further properties: the two requests *)

(** The two requests of a run are never the same text, even when both
    encodings and questions coincide: the name of the format is part of
    the prompt. *)
Theorem prompts_are_distinct (json toon : option str) (q1 q2 : str) :
  str_eqb (prompt json (lit "JSON") q1) (prompt toon (lit "TOON") q2) = false.
Proof.
  apply str_eqb_neq. unfold prompt. intros H.
  apply (f_equal (fun s => nth 56 s 0%N)) in H. vm_compute in H. discriminate.
Qed.

(* ================================================================= *)
(** ** More worked runs *)

Module MoreRuns.
Import Runs.

(** An environment given by its prompt, file system and converter; the
    service is down. *)
Definition world_with (stdin : result str) (found : bool)
  (converter : result unit) (read : Path -> result str) : Env :=
  mkEnv stdin (fun _ => found) (fun _ => converter) read
        (fun _ _ _ => Raise server_error)
        (fun _ => 0%N) (fun _ => 0%float) (Slept 0) (fun _ => Written).

Definition no_such_file : Env :=
  world_with (Ok (lit "q")) false (Ok tt) (fun _ => Ok sample_json).

Definition converter_exits_2 : Env :=
  world_with (Ok (lit "q")) true
    (Raise (Exception_ CalledProcessError
              (lit "Command returned non-zero exit status 2.")))
    (fun _ => Ok sample_json).

Definition unreadable : Env :=
  world_with (Ok (lit "q")) true (Ok tt)
    (fun _ => Raise (Exception_ (OtherException (lit "PermissionError"))
                                (lit "[Errno 13] Permission denied"))).

Definition service_down : Env :=
  world_with (Ok (lit "q")) true (Ok tt) (fun _ => Ok sample_json).

Definition interrupted_prompt : Env :=
  world_with (Raise KeyboardInterrupt) true (Ok tt) (fun _ => Ok sample_json).

Definition tokens : list str := [lit "How"; lit "many?"].

Lemma main_rejects_invalid_file_witness :
  env_exists no_such_file (of_str (lit "data/ages.json")) = false /\
  terminate (fst (main ascii_lower no_such_file sample_model sample_argv init_world))
  = Exited 1.
Proof.
  split; [reflexivity|].
  exact (proj1 (@main_rejects_invalid_file ascii_lower no_such_file sample_model
                  (lit "script.py") (lit "data/ages.json") tokens (lit "How many?")
                  init_world init_world eq_refl (or_introl eq_refl))).
Defined.

Lemma converter_failure_is_fatal_witness :
  terminate (fst (main ascii_lower converter_exits_2 sample_model sample_argv init_world))
  = Exited 1.
Proof.
  exact (proj1 (@converter_failure_is_fatal ascii_lower converter_exits_2 sample_model
                  (lit "script.py") (lit "data/ages.json") tokens (lit "How many?")
                  init_world init_world _ eq_refl eq_refl eq_refl eq_refl eq_refl)).
Defined.

Lemma read_failure_is_fatal_witness :
  terminate (fst (main ascii_lower unreadable sample_model sample_argv init_world))
  = Exited 1.
Proof.
  exact (proj1 (@read_failure_is_fatal ascii_lower unreadable sample_model
                  (lit "script.py") (lit "data/ages.json") tokens (lit "How many?")
                  init_world init_world _ eq_refl eq_refl eq_refl eq_refl
                  (or_introl eq_refl) eq_refl)).
Defined.

Lemma one_leg_fails_politely n c e :
  env_generate one_leg_fails n sample_model c = Raise e -> is_Exception e = true.
Proof. destruct n; simpl; intros H; inversion H; reflexivity. Qed.

Lemma run_with_working_tools_witness :
  env_sleep one_leg_fails = Slept 150000 /\
  terminate (fst (main ascii_lower one_leg_fails sample_model sample_argv init_world))
  = Exited 0.
Proof.
  split; [reflexivity|].
  exact (proj1 (@run_with_working_tools ascii_lower one_leg_fails sample_model
                  (lit "script.py") (lit "data/ages.json") tokens (lit "How many?")
                  init_world init_world sample_json sample_toon 150000
                  eq_refl eq_refl eq_refl eq_refl eq_refl eq_refl
                  one_leg_fails_politely eq_refl eq_refl)).
Defined.

Lemma failed_legs_look_alike_witness :
  exists results w',
    run_test service_down sample_model sample_test sample_question init_world
    = (Ok results, w') /\
    forall w2,
      trace (snd (display_results ascii_lower results w2))
      = trace w2 ++ [EvReport IDENTICAL SIMILAR].
Proof.
  exact (@failed_legs_look_alike ascii_lower service_down sample_model sample_test
           sample_question init_world 0 server_error server_error
           eq_refl eq_refl eq_refl eq_refl eq_refl eq_refl).
Defined.

Lemma prompt_failure_is_not_handled_witness :
  env_stdin interrupted_prompt = Raise KeyboardInterrupt /\
  terminate (fst (main ascii_lower interrupted_prompt sample_model
                    [lit "script.py"; lit "data/ages.json"] init_world))
  = Traceback KeyboardInterrupt.
Proof.
  split; [reflexivity|].
  exact (proj2 (proj2 (@prompt_failure_is_not_handled ascii_lower interrupted_prompt
                         sample_model (lit "script.py") (lit "data/ages.json")
                         init_world KeyboardInterrupt eq_refl)) eq_refl).
Defined.


End MoreRuns.
